(** * Marine_heatwaves_demo-2: the notebook's pipeline, embedded and verified

    The notebook opens the yearly NOAA OISST files, restricts them to a time
    window, averages two latitude/longitude boxes into daily series, hands
    the Leeuwin Current series to [mhw.detect] and shades the detected events.

    Conventions of the embedding:
    - Python and numpy integers are [Z]; list positions are [nat].
    - float32/float64 values are idealised as rationals [Q]: rounding
      (and with it the float32 accumulation of a mean) is outside the
      model.
    - a cell of the gridded data and a value of a reduced series is an
      [option Q], [None] being NaN (a masked cell such as land, or the
      mean of no cell); the series handed to the modelled detector and
      to the plotting helpers are taken without NaN.
    - a raising operation returns [inl e]; see [Err]. *)

From Stdlib Require Import ZArith QArith Lia Lqa.
From stdpp Require Import base list list_numbers sorting strings pretty.

Close Scope Q_scope.
Local Open Scope Z_scope.

(** ** Errors *)

(** The exceptions the notebook's own statements can raise, and [External]
    for whatever a library call raises (network failure, malformed slice,
    series too short for the detector, ...). *)
Inductive PyError :=
  | IndexError
  | ValueError
  | External (what : string).

Definition Err (A : Type) : Type := PyError + A.

Definition err_bind {A B} (m : Err A) (f : A → Err B) : Err B :=
  match m with
  | inl e => inl e
  | inr a => f a
  end.

(** ** Calendar: [datetime.toordinal] *)

(** What [ds.time.values.astype('datetime64[s]').tolist()] yields. *)
Record datetime := mk_datetime {
  dt_year : Z;
  dt_month : Z;
  dt_day : Z;
  dt_second : Z   (* second of the day *)
}.

Definition _is_leap (year : Z) : bool :=
  (year mod 4 =? 0) && (negb (year mod 100 =? 0) || (year mod 400 =? 0)).

Definition _days_before_year (year : Z) : Z :=
  let y := year - 1 in
  y * 365 + y / 4 - y / 100 + y / 400.

Definition _DAYS_IN_MONTH : list Z :=
  [31; 28; 31; 30; 31; 30; 31; 31; 30; 31; 30; 31].

(** [_DAYS_BEFORE_MONTH[month]], months counted from 1. *)
Definition _DAYS_BEFORE_MONTH (month : Z) : Z :=
  foldr Z.add 0 (take (Z.to_nat (month - 1)) _DAYS_IN_MONTH).

Definition _days_before_month (year month : Z) : Z :=
  _DAYS_BEFORE_MONTH month
  + (if (2 <? month) && _is_leap year then 1 else 0).

Definition _ymd2ord (year month day : Z) : Z :=
  _days_before_year year + _days_before_month year month + day.

Definition toordinal (d : datetime) : Z :=
  _ymd2ord (dt_year d) (dt_month d) (dt_day d).

(** ** numpy helpers *)

(** [np.arange(start, stop, step)] on integers, for a non-zero [step] (the
    notebook only uses 1): [ceil((stop - start) / step)] values, none when
    that is not positive. *)
Definition arange (start stop step : Z) : list Z :=
  (λ i, start + i * step) <$> seqZ 0 (- ((start - stop) / step)).

(** The position an index [i] denotes in a sequence of length [n]:
    negative indices count from the end. *)
Definition py_position (n i : Z) : Z := if i <? 0 then i + n else i.

(** Python's [l[i]]. *)
Definition py_getitem {A} (l : list A) (i : Z) : Err A :=
  let n := Z.of_nat (length l) in
  let j := py_position n i in
  if (0 <=? j) && (j <? n)
  then match l !! Z.to_nat j with Some a => inr a | None => inl IndexError end
  else inl IndexError.

(** [np.where(t == v)[0][0]]: the first position of [v] in [t]. *)
Fixpoint where_first (t : list Z) (v : Z) : Err nat :=
  match t with
  | [] => inl IndexError
  | d :: t' =>
      if d =? v then inr O
      else err_bind (where_first t' v) (λ i, inr (S i))
  end.

(** ** The data source adapter *)

Definition start_year : Z := 2010.
Definition end_year : Z := 2011.

Definition base_url_mean : string :=
  "http://www.esrl.noaa.gov/psd/thredds/dodsC/Datasets/noaa.oisst.v2.highres/sst.day.mean".
Definition base_url_anom : string :=
  "http://www.esrl.noaa.gov/psd/thredds/dodsC/Datasets/noaa.oisst.v2.highres/sst.day.anom".

(** [range(a, b)] *)
Definition py_range (a b : Z) : list Z := seqZ a (b - a).

(** [f'{base}.{year}.v2.nc'] *)
Definition url_of (base : string) (year : Z) : string :=
  base +:+ "." +:+ pretty year +:+ ".v2.nc".

Definition files_mean_of (start_year end_year : Z) : list string :=
  url_of base_url_mean <$> py_range start_year (end_year + 1).
Definition files_anom_of (start_year end_year : Z) : list string :=
  url_of base_url_anom <$> py_range start_year (end_year + 1).

Definition files_mean : list string := files_mean_of start_year end_year.
Definition files_anom : list string := files_anom_of start_year end_year.

(** The gridded dataset: coordinates [time], [lat], [lon] and the variables
    [anom] and [sst], each indexed [time][lat][lon]; a masked cell (land,
    ice) is NaN, here [None]. *)
Record Dataset := mk_Dataset {
  ds_time : list datetime;
  ds_lat : list Q;
  ds_lon : list Q;
  ds_anom : list (list (list (option Q)));
  ds_sst : list (list (list (option Q)))
}.

Definition grid_shape (nlat nlon : nat) (g : list (list (option Q))) : Prop :=
  length g = nlat ∧ Forall (λ row, length row = nlon) g.

Definition cube_shape (ntime nlat nlon : nat) (c : list (list (list (option Q)))) : Prop :=
  length c = ntime ∧ Forall (grid_shape nlat nlon) c.

(** The instant of a time label, in seconds. *)
Definition instant (d : datetime) : Z := toordinal d * 86400 + dt_second d.

(** A dataset the notebook's slices apply to: the three coordinates are
    increasing (a label slice needs a monotonic index) and both variables
    have the shape of the coordinates. *)
Definition wf_dataset (ds : Dataset) : Prop :=
  StronglySorted (λ a b, instant a < instant b) (ds_time ds)
  ∧ StronglySorted Qlt (ds_lat ds)
  ∧ StronglySorted Qlt (ds_lon ds)
  ∧ cube_shape (length (ds_time ds)) (length (ds_lat ds)) (length (ds_lon ds)) (ds_anom ds)
  ∧ cube_shape (length (ds_time ds)) (length (ds_lat ds)) (length (ds_lon ds)) (ds_sst ds).

(** Label-based selection along one axis with an increasing coordinate:
    the entries of [data] whose coordinate label satisfies [keep]. *)
Definition sel_axis {C A} (keep : C → bool) (coord : list C) (data : list A) : list A :=
  snd <$> filter (λ p, keep (fst p) = true) (zip coord data).

(** A month-resolution slice bound such as ['2010-12'] is the pair
    [(2010, 12)]; [slice(lo, hi)] keeps every instant from the first of
    month [lo] to the end of month [hi]. *)
Definition month_index (ym : Z * Z) : Z := fst ym * 12 + (snd ym - 1).

Definition in_months (lo hi : Z * Z) (d : datetime) : bool :=
  (month_index lo <=? month_index (dt_year d, dt_month d))
  && (month_index (dt_year d, dt_month d) <=? month_index hi).

(** [ds.sel(time=slice(lo, hi))] *)
Definition sel_time (lo hi : Z * Z) (ds : Dataset) : Dataset :=
  {| ds_time := filter (λ d, in_months lo hi d = true) (ds_time ds);
     ds_lat := ds_lat ds;
     ds_lon := ds_lon ds;
     ds_anom := sel_axis (in_months lo hi) (ds_time ds) (ds_anom ds);
     ds_sst := sel_axis (in_months lo hi) (ds_time ds) (ds_sst ds) |}.

(** ** The spatial reducer *)

(** A variable of the dataset together with its coordinates
    ([ds.anom], [ds.sst]). *)
Record DataArray := mk_DataArray {
  da_time : list datetime;
  da_lat : list Q;
  da_lon : list Q;
  da_values : list (list (list (option Q)))
}.

(** A variable reduced to the time dimension; a value is NaN ([None])
    where there was nothing to reduce. *)
Record Series := mk_Series {
  s_time : list datetime;
  s_values : list (option Q)
}.

Definition anom (ds : Dataset) : DataArray :=
  mk_DataArray (ds_time ds) (ds_lat ds) (ds_lon ds) (ds_anom ds).
Definition sst (ds : Dataset) : DataArray :=
  mk_DataArray (ds_time ds) (ds_lat ds) (ds_lon ds) (ds_sst ds).

(** [slice(lo, hi)] on a coordinate: both ends included. *)
Definition in_slice (lo hi c : Q) : bool := Qle_bool lo c && Qle_bool c hi.

(** [da.sel(lat=slice(lat_lo, lat_hi), lon=slice(lon_lo, lon_hi))] *)
Definition sel_box (lat_lo lat_hi lon_lo lon_hi : Q) (da : DataArray) : DataArray :=
  {| da_time := da_time da;
     da_lat := filter (λ c, in_slice lat_lo lat_hi c = true) (da_lat da);
     da_lon := filter (λ c, in_slice lon_lo lon_hi c = true) (da_lon da);
     da_values :=
       (λ grid,
          sel_axis (in_slice lon_lo lon_hi) (da_lon da)
            <$> sel_axis (in_slice lat_lo lat_hi) (da_lat da) grid)
       <$> da_values da |}.

Definition Qsum (l : list Q) : Q := foldr Qplus 0%Q l.

(** The cells that are not NaN. *)
Definition valid_cells (cells : list (option Q)) : list Q := omap id cells.

(** xarray's [mean] of a float array ([skipna] by default): the NaN cells
    are skipped and the others averaged; NaN when no cell is left. *)
Definition nanmean (cells : list (option Q)) : option Q :=
  match valid_cells cells with
  | [] => None
  | v :: rest => Some (Qsum (v :: rest) / inject_Z (Z.of_nat (length (v :: rest))))%Q
  end.

(** [da.mean(['lon', 'lat'])]: both spatial dimensions are reduced at once,
    one value per time step. *)
Definition mean_lon_lat (da : DataArray) : Series :=
  {| s_time := da_time da;
     s_values := (λ grid, nanmean (concat grid)) <$> da_values da |}.

Definition sst_anom_nino34_of (ds : Dataset) : Series :=
  mean_lon_lat (sel_box (-5) 5 190 240 (anom ds)).
Definition sst_lc_of (ds : Dataset) : Series :=
  mean_lon_lat (sel_box (-32) (-26) 112 115 (sst ds)).
Definition sst_anom_lc_of (ds : Dataset) : Series :=
  mean_lon_lat (sel_box (-32) (-26) 112 115 (anom ds)).

(** The cells of one time step's grid inside a box, enumerated by position:
    what "the array restricted to the bounding box" means. *)
Definition box_cells (lat_lo lat_hi lon_lo lon_hi : Q)
    (lat lon : list Q) (grid : list (list (option Q))) : list (option Q) :=
  j ← seq 0 (length lat);
  k ← seq 0 (length lon);
  match lat !! j, lon !! k, grid !! j ≫= (.!! k) with
  | Some la, Some lo, Some v =>
      if in_slice lat_lo lat_hi la && in_slice lon_lo lon_hi lo then [v] else []
  | _, _, _ => []
  end.

(** ** Dates and ordinal days *)

(** [np.arange(dates[0].toordinal(), dates[-1].toordinal() + 1)] *)
Definition t_of (dates : list datetime) : Err (list Z) :=
  err_bind (py_getitem dates 0) (λ d0,
  err_bind (py_getitem dates (-1)) (λ dl,
  inr (arange (toordinal d0) (toordinal dl + 1) 1))).

(** Daily cadence: each date is the day after its predecessor. *)
Fixpoint daily (dates : list datetime) : Prop :=
  match dates with
  | d :: (d' :: _) as rest => toordinal d' = toordinal d + 1 ∧ daily rest
  | _ => True
  end.

(** ** The detector's interface *)

(** The event collection [mhws], one column per field, an event being a
    position in the columns; the notebook reads [time_start], [time_end]
    and [intensity_max]. *)
Record MHWs := mk_MHWs {
  time_start : list Z;
  time_end : list Z;
  duration : list Z;
  intensity_max : list Q;
  intensity_mean : list Q;
  intensity_cumulative : list Q
}.

(** The climatology [clim]: seasonal mean and threshold, one per day. *)
Record Clim := mk_Clim {
  seas : list Q;
  thresh : list Q
}.

(** [value] is the arithmetic mean of the cells that are not NaN: times
    their number it is their sum; and it is NaN exactly when every cell
    is. *)
Definition is_mean_of (cells : list (option Q)) (value : option Q) : Prop :=
  match value with
  | Some v =>
      omap id cells ≠ []
      ∧ (v * inject_Z (Z.of_nat (length (omap id cells)))
         == foldr Qplus 0 (omap id cells))%Q
  | None => omap id cells = []
  end.

Definition qmax (a b : Q) : Q := if Qle_bool a b then b else a.

(** [np.argmax]: the first position of the largest value. *)
Fixpoint argmax_from (best_i : nat) (best : Q) (i : nat) (l : list Q) : nat :=
  match l with
  | [] => best_i
  | v :: l' =>
      if Qle_bool v best then argmax_from best_i best (S i) l'
      else argmax_from i v (S i) l'
  end.

Definition argmax (l : list Q) : Err nat :=
  match l with
  | [] => inl ValueError
  | v :: l' => inr (argmax_from 0 v 1 l')
  end.

(** ** Presentation: which events are shaded *)

(** The positions the neighbour loop visits:
    [np.arange(ev - 1, ev + 1, 1)]. *)
Definition neighbour_indices (ev : Z) : list Z := arange (ev - 1) (ev + 1) 1.

(** [t1] and [t2] for the event at position [ev0]. *)
Definition shade_range (t : list Z) (mhws : MHWs) (ev0 : Z) : Err (nat * nat) :=
  err_bind (py_getitem (time_start mhws) ev0) (λ s,
  err_bind (where_first t s) (λ t1,
  err_bind (py_getitem (time_end mhws) ev0) (λ e,
  err_bind (where_first t e) (λ t2,
  inr (t1, t2))))).

(** The ranges the neighbour loop shades, in order. *)
Fixpoint shade_all (t : list Z) (mhws : MHWs) (idx : list Z) : Err (list (nat * nat)) :=
  match idx with
  | [] => inr []
  | ev0 :: idx' =>
      err_bind (shade_range t mhws ev0) (λ r,
      err_bind (shade_all t mhws idx') (λ rs, inr (r :: rs)))
  end.

Definition shade_neighbours (t : list Z) (mhws : MHWs) (ev : Z) : Err (list (nat * nat)) :=
  shade_all t mhws (neighbour_indices ev).

(** ** The event detector, modelled

    The detector [mhw.detect] belongs to the external module
    marineHeatWaves, which is not among the notebook's sources. It is
    modelled here after the algorithm shape the specification gives: a
    seasonal cycle from the full series; a threshold from the
    extreme-value statistic of the deseasonalised series; a day is flagged
    when its value exceeds the threshold; flagged runs within the joining
    distance are merged; events shorter than the minimum duration are
    discarded; the intensity statistics are taken over the deviations from
    the seasonal cycle. *)

(** Modelled from the spec: the parts of [mhw.detect] the specification
    leaves open, namely how the seasonal cycle and the extreme-value
    statistic are estimated and smoothed, the joining distance and the
    minimum duration. A series is the sequence of (ordinal day, value)
    pairs. *)
Record DetectorModel := mk_DetectorModel {
  seasonal_cycle : list (Z * Q) → list Q;
  extreme_value : list (Z * Q) → list Q;
  within_joining_distance : nat → bool;
  min_duration : nat
}.

(** Modelled from the spec: the climatology of [mhw.detect] is aligned 1:1
    with the series it is computed from. *)
Definition aligned (D : DetectorModel) : Prop :=
  (∀ s, length (seasonal_cycle D s) = length s)
  ∧ (∀ s, length (extreme_value D s) = length s).

(** Modelled from the spec: the flagged runs of [mhw.detect], maximal and
    given as (first, last) positions; [cur] is the run being read and [i]
    the position of the next flag. *)
Fixpoint runs_from (i : nat) (cur : option (nat * nat)) (flags : list bool)
    : list (nat * nat) :=
  match flags with
  | [] => option_list cur
  | f :: fs =>
      if f
      then runs_from (S i) (Some (match cur with Some (a, _) => (a, i) | None => (i, i) end)) fs
      else option_list cur ++ runs_from (S i) None fs
  end.

(** Modelled from the spec: the joining step of [mhw.detect]; runs
    separated by a gap within the joining distance become one. *)
Fixpoint merge_runs (join : nat → bool) (rs : list (nat * nat)) : list (nat * nat) :=
  match rs with
  | [] => []
  | (a, b) :: rs' =>
      match merge_runs join rs' with
      | (a', b') :: out =>
          if join (a' - b - 1)%nat then (a, b') :: out else (a, b) :: (a', b') :: out
      | [] => [(a, b)]
      end
  end.

Definition run_length (r : nat * nat) : nat := (snd r - fst r + 1)%nat.

(** The values at positions [a .. b]. *)
Definition slice_incl {A} (a b : nat) (l : list A) : list A :=
  take (b - a + 1)%nat (drop a l).

(** Modelled from the spec: the mean intensity of [mhw.detect], the
    arithmetic mean of the deviations over the days of an event (there is
    at least one). *)
Definition Qmean (l : list Q) : Q :=
  (Qsum l / inject_Z (Z.of_nat (length l)))%Q.

Definition Qmax_list (l : list Q) : Q :=
  match l with
  | [] => 0%Q
  | v :: l' => foldl qmax v l'
  end.

(** Modelled from the spec: the seasonal cycle [mhw.detect] computes from
    the full series. *)
Definition detect_seas (D : DetectorModel) (t : list Z) (x : list Q) : list Q :=
  seasonal_cycle D (zip t x).

(** Modelled from the spec: the deseasonalised series of [mhw.detect]. *)
Definition deviations (D : DetectorModel) (t : list Z) (x : list Q) : list Q :=
  zip_with Qminus x (detect_seas D t x).

(** Modelled from the spec: the threshold of [mhw.detect], the seasonal
    cycle raised by the extreme-value statistic of the deviations. *)
Definition detect_thresh (D : DetectorModel) (t : list Z) (x : list Q) : list Q :=
  zip_with Qplus (detect_seas D t x) (extreme_value D (zip t (deviations D t x))).

(** Modelled from the spec: [mhw.detect] flags a day when the observed
    value exceeds the threshold. *)
Definition exceeds (v th : Q) : bool := negb (Qle_bool v th).

Definition detect_flags (D : DetectorModel) (t : list Z) (x : list Q) : list bool :=
  zip_with exceeds x (detect_thresh D t x).

(** Modelled from the spec: the events of [mhw.detect]: the flagged runs,
    joined, those shorter than the minimum duration discarded. *)
Definition detect_events (D : DetectorModel) (t : list Z) (x : list Q) : list (nat * nat) :=
  filter (λ r, (min_duration D ≤ run_length r)%nat)
    (merge_runs (within_joining_distance D) (runs_from 0 None (detect_flags D t x))).

(** Modelled from the spec: the external detector [mhw.detect] of the
    module marineHeatWaves, which is not among the notebook's sources. It
    returns the event columns (start and end day, duration, maximum, mean and
    cumulative intensity over the deviations from the seasonal cycle) and
    the climatology. *)
Definition detect (D : DetectorModel) (t : list Z) (x : list Q) : MHWs * Clim :=
  let dev := deviations D t x in
  let evs := detect_events D t x in
  ({| time_start := (λ r, t !!! fst r) <$> evs;
      time_end := (λ r, t !!! snd r) <$> evs;
      duration := (λ r, Z.of_nat (run_length r)) <$> evs;
      intensity_max := (λ r, Qmax_list (slice_incl (fst r) (snd r) dev)) <$> evs;
      intensity_mean := (λ r, Qmean (slice_incl (fst r) (snd r) dev)) <$> evs;
      intensity_cumulative := (λ r, Qsum (slice_incl (fst r) (snd r) dev)) <$> evs |},
   {| seas := detect_seas D t x;
      thresh := detect_thresh D t x |}).

(** Modelled from the spec: the extreme-value statistic of [mhw.detect]
    in the form the specification names for it, a smoothed high percentile
    per day-of-year of the deseasonalised series. What stays open is which
    days share a day's season, which order statistic the percentile is,
    and which days a day is smoothed over. *)
Record PercentileModel := mk_PercentileModel {
  p_seasonal_cycle : list (Z * Q) → list Q;
  p_same_season : Z → Z → bool;
  p_rank : nat → nat;
  p_smoothing : Z → Z → bool;
  p_within_joining_distance : nat → bool;
  p_min_duration : nat
}.

(** Modelled from the spec: the percentile of a sample, its order
    statistic of rank [rank n] among [n] values (the largest one when the
    rank is beyond them; 0 for no value). *)
Definition percentile (rank : nat → nat) (sample : list Q) : Q :=
  default 0%Q
    (merge_sort (λ a b, Is_true (Qle_bool a b)) sample
       !! Nat.min (rank (length sample)) (Nat.pred (length sample))).

(** Modelled from the spec: the deviations of the days that share the
    season of day [d]. *)
Definition day_sample (P : PercentileModel) (s : list (Z * Q)) (d : Z) : list Q :=
  snd <$> filter (λ p, p_same_season P d (fst p) = true) s.

(** Modelled from the spec: the percentile per day, before smoothing. *)
Definition day_percentiles (P : PercentileModel) (s : list (Z * Q)) : list (Z * Q) :=
  (λ p, (fst p, percentile (p_rank P) (day_sample P s (fst p)))) <$> s.

(** Modelled from the spec: the smoothed percentile, per day the mean of
    the percentiles of the days it is smoothed over. *)
Definition smoothed_percentile (P : PercentileModel) (s : list (Z * Q)) : list Q :=
  (λ p, Qmean (snd <$> filter (λ q, p_smoothing P (fst p) (fst q) = true)
                          (day_percentiles P s)))
  <$> s.

(** Modelled from the spec: the detector whose extreme-value statistic is
    the smoothed percentile. *)
Definition percentile_detector (P : PercentileModel) : DetectorModel :=
  {| seasonal_cycle := p_seasonal_cycle P;
     extreme_value := smoothed_percentile P;
     within_joining_distance := p_within_joining_distance P;
     min_duration := p_min_duration P |}.

(** ** The notebook as a script *)

Inductive Box := Nino34 | LeeuwinSst | LeeuwinAnom.

(** The two places that shade an event: pass [k] of the neighbour loop,
    and the largest event itself. *)
Inductive Which := Neighbour (k : nat) | Largest.

(** The raising operations of the notebook, by call site, in source order. *)
Inductive Stage :=
  | OpenMfdataset | SelTime
  | SelBox (b : Box) | MeanBox (b : Box)
  | TimeValues | DatesFirst | DatesLast
  | SstValues | Detect | Argmax
  | Subplots | Ax1SetTitle | Ax1Plot | Ax1Axhline0 | Ax1AxhlineBnd1
  | Ax1AxhlineBnd2 | Ax1FillRed | Ax1FillBlue | Ax1SetYlabel | Ax1SetYlim
  | TFirst | TLast | Ax1SetXlim
  | Ax2SetTitle | Ax2PlotSst | Ax2PlotThresh | Ax2PlotSeas
  | Lookup (w : Which) | Fill (w : Which)
  | PeakIntensity | Ylim | Ylabel | Savefig.

Global Instance Box_eq_dec : EqDecision Box.
Proof. solve_decision. Defined.
Global Instance Which_eq_dec : EqDecision Which.
Proof. solve_decision. Defined.
Global Instance Stage_eq_dec : EqDecision Stage.
Proof. solve_decision. Defined.

Inductive Outcome := Returned | Raised (e : PyError).

Definition Log := list (Stage * Outcome).

(** The world outside the notebook: the remote dataset service, the
    detector module (it receives [sst_lc.values], NaN included), and which
    library call fails (with what) when run. *)
Record Environment := mk_Environment {
  remote_open : list (list string) → Err Dataset;
  detector : list Z → list (option Q) → Err (MHWs * Clim);
  fault : Stage → option PyError
}.

(** A statement: it extends the log of operations run so far and returns a
    value or raises. *)
Definition M (A : Type) : Type := Log → Log * Err A.

Definition m_ret {A} (a : A) : M A := λ log, (log, inr a).

(** Sequencing: what follows a raising statement is not run; the notebook
    has no [try]. *)
Definition m_bind {A B} (m : M A) (f : A → M B) : M B :=
  λ log,
    match m log with
    | (log', inl e) => (log', inl e)
    | (log', inr a) => f a log'
    end.

Notation "x ⇐ m ;; k" := (m_bind m (λ x, k))
  (at level 100, m at next level, right associativity, only parsing).

Definition outcome_of {A} (r : Err A) : Outcome :=
  match r with
  | inl e => Raised e
  | inr _ => Returned
  end.

(** One raising operation at call site [st] with result [r]. *)
Definition step {A} (st : Stage) (r : Err A) : M A :=
  λ log, (log ++ [(st, outcome_of r)], r).

(** A library call that returns [v] unless the environment makes it fail. *)
Definition lib {A} (env : Environment) (st : Stage) (v : A) : M A :=
  step st (match fault env st with Some e => inl e | None => inr v end).

(** [for a in l: body], the passes numbered from [k]. *)
Fixpoint m_for {A B} (k : nat) (l : list A) (body : nat → A → M B) : M (list B) :=
  match l with
  | [] => m_ret []
  | a :: l' => b ⇐ body k a ;; bs ⇐ m_for (S k) l' body ;; m_ret (b :: bs)
  end.

(** What the saved figure shades: the neighbour ranges and the largest
    event's range, as positions in [dates]. *)
Record Figure := mk_Figure {
  fig_neighbours : list (nat * nat);
  fig_largest : nat * nat
}.

(** [ds.<var>.sel(lat=..., lon=...).mean([..])] for one of the boxes. *)
Definition reduce (env : Environment) (b : Box) (bounds : Q * Q * Q * Q)
    (da : DataArray) : M Series :=
  let '(lat_lo, lat_hi, lon_lo, lon_hi) := bounds in
  boxed ⇐ lib env (SelBox b) (sel_box lat_lo lat_hi lon_lo lon_hi da) ;;
  lib env (MeanBox b) (mean_lon_lat boxed).

(** [t1], [t2] and the [fill_between] of one event. *)
Definition shade (env : Environment) (t : list Z) (mhws : MHWs) (w : Which) (ev0 : Z)
    : M (nat * nat) :=
  r ⇐ step (Lookup w) (shade_range t mhws ev0) ;;
  _ ⇐ lib env (Fill w) tt ;;
  m_ret r.

(** Everything after the dataset has been opened and restricted: the two
    reductions, the detector cell and the plotting cell up to
    [plt.savefig]. *)
Definition analysis (env : Environment) (ds : Dataset) : M Figure :=
  sst_anom_nino34 ⇐ reduce env Nino34 ((-5)%Q, 5%Q, 190%Q, 240%Q) (anom ds) ;;
  sst_lc ⇐ reduce env LeeuwinSst ((-32)%Q, (-26)%Q, 112%Q, 115%Q) (sst ds) ;;
  sst_anom_lc ⇐ reduce env LeeuwinAnom ((-32)%Q, (-26)%Q, 112%Q, 115%Q) (anom ds) ;;
  dates ⇐ lib env TimeValues (ds_time ds) ;;
  d0 ⇐ step DatesFirst (py_getitem dates 0) ;;
  dl ⇐ step DatesLast (py_getitem dates (-1)) ;;
  let t := arange (toordinal d0) (toordinal dl + 1) 1 in
  x ⇐ lib env SstValues (s_values sst_lc) ;;
  out ⇐ step Detect (detector env t x) ;;
  let '(mhws, clim) := out in
  ev ⇐ step Argmax (argmax (intensity_max mhws)) ;;
  let ev := Z.of_nat ev in
  _ ⇐ lib env Subplots tt ;;
  _ ⇐ lib env Ax1SetTitle tt ;;
  _ ⇐ lib env Ax1Plot tt ;;
  _ ⇐ lib env Ax1Axhline0 tt ;;
  _ ⇐ lib env Ax1AxhlineBnd1 tt ;;
  _ ⇐ lib env Ax1AxhlineBnd2 tt ;;
  _ ⇐ lib env Ax1FillRed tt ;;
  _ ⇐ lib env Ax1FillBlue tt ;;
  _ ⇐ lib env Ax1SetYlabel tt ;;
  _ ⇐ lib env Ax1SetYlim tt ;;
  _ ⇐ step TFirst (py_getitem t 0) ;;
  _ ⇐ step TLast (py_getitem t (-1)) ;;
  _ ⇐ lib env Ax1SetXlim tt ;;
  _ ⇐ lib env Ax2SetTitle tt ;;
  _ ⇐ lib env Ax2PlotSst tt ;;
  _ ⇐ lib env Ax2PlotThresh tt ;;
  _ ⇐ lib env Ax2PlotSeas tt ;;
  near ⇐ m_for 0 (neighbour_indices ev) (λ k ev0, shade env t mhws (Neighbour k) ev0) ;;
  main ⇐ shade env t mhws Largest ev ;;
  _ ⇐ step PeakIntensity (py_getitem (intensity_max mhws) ev) ;;
  _ ⇐ lib env Ylim tt ;;
  _ ⇐ lib env Ylabel tt ;;
  _ ⇐ lib env Savefig tt ;;
  m_ret (mk_Figure near main).

(** The notebook: open the yearly files, restrict to the window
    2010-12 .. 2011-05, then analyse. *)
Definition notebook (env : Environment) : M Figure :=
  ds ⇐ step OpenMfdataset (remote_open env [files_mean; files_anom]) ;;
  ds ⇐ lib env SelTime (sel_time (2010, 12) (2011, 5) ds) ;;
  analysis env ds.

(** The call sites in source order, the neighbour loop making two passes. *)
Definition script : list Stage :=
  [OpenMfdataset; SelTime;
   SelBox Nino34; MeanBox Nino34; SelBox LeeuwinSst; MeanBox LeeuwinSst;
   SelBox LeeuwinAnom; MeanBox LeeuwinAnom;
   TimeValues; DatesFirst; DatesLast; SstValues; Detect; Argmax;
   Subplots; Ax1SetTitle; Ax1Plot; Ax1Axhline0; Ax1AxhlineBnd1;
   Ax1AxhlineBnd2; Ax1FillRed; Ax1FillBlue; Ax1SetYlabel; Ax1SetYlim;
   TFirst; TLast; Ax1SetXlim;
   Ax2SetTitle; Ax2PlotSst; Ax2PlotThresh; Ax2PlotSeas;
   Lookup (Neighbour 0); Fill (Neighbour 0);
   Lookup (Neighbour 1); Fill (Neighbour 1);
   Lookup Largest; Fill Largest;
   PeakIntensity; Ylim; Ylabel; Savefig].

Definition returned (entry : Stage * Outcome) : Prop := snd entry = Returned.

(** A statement that runs the call sites [sts] in order: when it returns,
    each of them has run once and returned; when it raises [e], the sites
    before the raising one have returned, the raising one is the last
    logged, and nothing of [sts] after it has run. *)
Definition runs {A} (sts : list Stage) (m : M A) : Prop :=
  ∀ log,
    match m log with
    | (log', inr _) =>
        ∃ new, log' = log ++ new ∧ Forall returned new ∧ fst <$> new = sts
    | (log', inl e) =>
        ∃ pre st, log' = log ++ pre ++ [(st, Raised e)]
                  ∧ Forall returned pre
                  ∧ (fst <$> pre) ++ [st] `prefix_of` sts
    end.

(** ** Sample inputs *)

(** A cube without any masked cell. *)
Definition all_sea (cube : list (list (list Q))) : list (list (list (option Q))) :=
  (λ grid : list (list Q), (λ row : list Q, Some <$> row) <$> grid) <$> cube.

(** Two days on a 3 x 3 grid that reaches both boxes: the first latitude
    and longitude lie in the Leeuwin Current box, the other two in the
    Nino 3.4 box; one cell of the Nino 3.4 box is masked. *)
Definition pacific_ds : Dataset :=
  {| ds_time := [mk_datetime 2011 2 24 0; mk_datetime 2011 2 25 0];
     ds_lat := [(-239 # 8)%Q; (-1 # 8)%Q; (39 # 8)%Q];
     ds_lon := [(905 # 8)%Q; (1601 # 8)%Q; (1919 # 8)%Q];
     ds_anom := [[[Some 2; Some 9; Some 9];
                  [Some 9; Some (1 # 2); None];
                  [Some 9; Some 1; Some (3 # 2)]];
                 [[Some 3; Some 9; Some 9];
                  [Some 9; Some 1; None];
                  [Some 9; Some 2; Some 3]]]%Q;
     ds_sst := [[[Some 24; Some 0; Some 0];
                 [Some 0; Some 28; None];
                 [Some 0; Some 29; Some 30]];
                [[Some 25; Some 0; Some 0];
                 [Some 0; Some 28; None];
                 [Some 0; Some 29; Some 30]]]%Q |}.

(** Three days across the turn of the year on a 2 x 2 grid. *)
Definition demo_ds : Dataset :=
  {| ds_time := [mk_datetime 2010 12 31 0; mk_datetime 2011 1 1 0; mk_datetime 2011 1 2 0];
     ds_lat := [(-239 # 8)%Q; (-237 # 8)%Q];
     ds_lon := [(905 # 8)%Q; (907 # 8)%Q];
     ds_anom := all_sea [[[1 # 2; 1 # 4]; [3 # 4; 1 # 2]];
                         [[1; 1 # 2]; [1 # 2; 1]];
                         [[2; 1]; [1; 2]]]%Q;
     ds_sst := all_sea [[[22; 23]; [22; 23]];
                        [[23; 24]; [23; 24]];
                        [[24; 25]; [24; 25]]]%Q |}.

(** Six time labels on a single cell, the first and the last outside the
    window 2010-12 .. 2011-05 and one of them in December 2011. *)
Definition window_ds : Dataset :=
  {| ds_time := [mk_datetime 2010 11 30 0; mk_datetime 2010 12 1 0;
                 mk_datetime 2011 2 25 0; mk_datetime 2011 5 31 0;
                 mk_datetime 2011 6 1 0; mk_datetime 2011 12 1 0];
     ds_lat := [(-239 # 8)%Q];
     ds_lon := [(905 # 8)%Q];
     ds_anom := all_sea [[[1]]; [[2]]; [[3]]; [[4]]; [[5]]; [[6]]]%Q;
     ds_sst := all_sea [[[21]]; [[22]]; [[23]]; [[24]]; [[25]]; [[26]]]%Q |}.

(** The same grid with 2011-01-02 missing from the time coordinate. *)
Definition gappy_ds : Dataset :=
  {| ds_time := [mk_datetime 2011 1 1 0; mk_datetime 2011 1 3 0];
     ds_lat := [(-239 # 8)%Q; (-237 # 8)%Q];
     ds_lon := [(905 # 8)%Q; (907 # 8)%Q];
     ds_anom := all_sea [[[1; 1 # 2]; [1 # 2; 1]];
                         [[2; 1]; [1; 2]]]%Q;
     ds_sst := all_sea [[[23; 24]; [23; 24]];
                        [[24; 25]; [24; 25]]]%Q |}.

(** The detector fails on the sample dataset; everything else works. *)
Definition env_detector_fails : Environment :=
  {| remote_open := λ _, inr demo_ds;
     detector := λ _ _, inl (External "series too short");
     fault := λ _, None |}.

(** Daily and contiguous: each element is its predecessor plus one. *)
Definition contiguous (t : list Z) : Prop :=
  ∀ i a b, t !! i = Some a → t !! S i = Some b → b = a + 1.

(** Two events on days 10 .. 11 and 13 .. 15, the first the more intense. *)
Definition two_events : MHWs :=
  {| time_start := [10; 13];
     time_end := [11; 15];
     duration := [2; 3];
     intensity_max := [3; 1]%Q;
     intensity_mean := [2; 1]%Q;
     intensity_cumulative := [4; 3]%Q |}.

(** A small instance of the detector's open parts: the seasonal cycle is
    the mean of the whole series, the extreme-value statistic half the
    largest deviation, runs are joined across a gap of fewer than 2 days
    and an event lasts at least 2 days. *)
Definition example_detector : DetectorModel :=
  {| seasonal_cycle := λ s, replicate (length s) (Qmean (snd <$> s));
     extreme_value := λ s, replicate (length s) (Qmax_list (snd <$> s) / 2)%Q;
     within_joining_distance := λ gap, (gap <? 2)%nat;
     min_duration := 2 |}.

(** A percentile instance: one season for all days, the 90th percentile,
    smoothed over a day and its two neighbours. *)
Definition example_percentile_model : PercentileModel :=
  {| p_seasonal_cycle := λ s, replicate (length s) (Qmean (snd <$> s));
     p_same_season := λ _ _, true;
     p_rank := λ n, (9 * n / 10)%nat;
     p_smoothing := λ d d', (Z.abs (d - d') <=? 1)%Z;
     p_within_joining_distance := λ gap, (gap <? 2)%nat;
     p_min_duration := 2 |}.

(** Ten days with a two-day spike and a one-day spike. *)
Definition spike_t : list Z := arange 734137 734147 1.
Definition spike_x : list Q := [20; 20; 25; 26; 20; 24; 25; 20; 20; 20]%Q.

(** Runs in increasing order inside [lo, hi): each is non-empty and lies
    strictly after the one before. *)
Fixpoint chain (lo hi : nat) (rs : list (nat * nat)) : Prop :=
  match rs with
  | [] => True
  | (a, b) :: rs' => (lo ≤ a ∧ a ≤ b ∧ b < hi)%nat ∧ chain (S b) hi rs'
  end.

(** Modelled from the spec: a series is flat at the seasonal mean of
    [mhw.detect] when every value equals the seasonal mean of its day. *)
Definition flat_at_seasonal_mean (D : DetectorModel) (t : list Z) (x : list Q) : Prop :=
  Forall2 Qeq x (detect_seas D t x).

Definition no_events : MHWs := mk_MHWs [] [] [] [] [] [].

(** Ten days from 2010-12-31 on a single cell off Western Australia, the
    sea surface temperature being [spike_x]. *)
Definition spike_ds : Dataset :=
  {| ds_time :=
       [mk_datetime 2010 12 31 0; mk_datetime 2011 1 1 0; mk_datetime 2011 1 2 0;
        mk_datetime 2011 1 3 0; mk_datetime 2011 1 4 0; mk_datetime 2011 1 5 0;
        mk_datetime 2011 1 6 0; mk_datetime 2011 1 7 0; mk_datetime 2011 1 8 0;
        mk_datetime 2011 1 9 0];
     ds_lat := [(-239 # 8)%Q];
     ds_lon := [(905 # 8)%Q];
     ds_anom := (λ v, [[Some v]]) <$> [0; 0; 1; 2; 0; 1; 1; 0; 0; 0]%Q;
     ds_sst := (λ v, [[Some v]]) <$> spike_x |}.

(** The remote service serves [ds], the detector is the modelled one
    (refusing a series with a NaN), and no library call fails. *)
Definition env_serving (ds : Dataset) : Environment :=
  {| remote_open := λ _, inr ds;
     detector := λ t x,
       match mapM id x with
       | Some values => inr (detect example_detector t values)
       | None => inl (External "NaN in the series")
       end;
     fault := λ _, None |}.

(** ** The plotting cells: thresholds, masks, limits and slices *)

(** [bnd1 = 0.4] and [bnd2 = -bnd1], the Nino 3.4 thresholds. *)
Definition bnd1 : Q := 4 # 10.
Definition bnd2 : Q := - bnd1.

(** [series > b] and [series < b], the [where=] arguments of
    [fill_between]. *)
Definition mask_gt (series : list Q) (b : Q) : list bool :=
  (λ v, negb (Qle_bool v b)) <$> series.
Definition mask_lt (series : list Q) (b : Q) : list bool :=
  (λ v, negb (Qle_bool b v)) <$> series.

(** [where=sst_anom_nino34 > bnd1] (red) and
    [where=sst_anom_nino34 < bnd2] (blue). *)
Definition el_nino_mask (sst_anom_nino34 : list Q) : list bool :=
  mask_gt sst_anom_nino34 bnd1.
Definition la_nina_mask (sst_anom_nino34 : list Q) : list bool :=
  mask_lt sst_anom_nino34 bnd2.

(** [where=sst_anom_lc > 1] (light) and [where=sst_anom_lc > 2] (red) of
    the last plotting cell. *)
Definition moderate_mask (sst_anom_lc : list Q) : list bool := mask_gt sst_anom_lc 1.
Definition strong_mask (sst_anom_lc : list Q) : list bool := mask_gt sst_anom_lc 2.

Definition qmin (a b : Q) : Q := if Qle_bool a b then a else b.

(** [series.min()] and [series.max()]: a [ValueError] on no value. *)
Definition series_min (series : list Q) : Err Q :=
  match series with
  | [] => inl ValueError
  | v :: rest => inr (foldl qmin v rest)
  end.
Definition series_max (series : list Q) : Err Q :=
  match series with
  | [] => inl ValueError
  | v :: rest => inr (foldl qmax v rest)
  end.

(** The arguments of
    [ax1.set_ylim(sst_anom_nino34.min() - 0.1, sst_anom_nino34.max() + 0.1)]. *)
Definition ax1_ylim (sst_anom_nino34 : list Q) : Err (Q * Q) :=
  err_bind (series_min sst_anom_nino34) (λ lo,
  err_bind (series_max sst_anom_nino34) (λ hi,
  inr (lo - (1 # 10), hi + (1 # 10))%Q)).

(** [l[start:stop]] for positions that are not negative. *)
Definition py_slice {A} (l : list A) (start stop : nat) : list A :=
  drop start (take stop l).

(** [dates[t1:t2 + 1]], the days one [fill_between] shades. *)
Definition shaded_dates (dates : list datetime) (r : nat * nat) : list datetime :=
  py_slice dates (fst r) (snd r + 1).

(** The sample dataset is served and the detector finds no event. *)
Definition env_quiet : Environment :=
  {| remote_open := λ _, inr demo_ds;
     detector := λ _ _, inr (no_events, mk_Clim [] []);
     fault := λ _, None |}.

(** ** Reasoning about runs *)

(** From a log satisfying [Pre], the statement [m] ends with a log and a
    result satisfying [Post]. *)
Definition triple {A} (Pre : Log → Prop) (m : M A) (Post : Log → Err A → Prop) : Prop :=
  ∀ log, Pre log → Post (m log).1 (m log).2.

(** Whenever [m] returns, the value satisfies [V]. *)
Definition returns {A} (m : M A) (V : A → Prop) : Prop :=
  ∀ log a, (m log).2 = inr a → V a.

(** Plotting has not started and the detector has not returned. *)
Definition before_detect (log : Log) : Prop :=
  (Subplots ∉ log.*1) ∧ ((Detect, Returned) ∉ log).

(** * Theorems *)

(** ** Basic facts about the helpers *)

Example toordinal_1998 : toordinal (mk_datetime 1998 1 1 0) = 729390.
Proof. reflexivity. Qed.

Example arange_ex : arange 3 8 2 = [3; 5; 7].
Proof. reflexivity. Qed.

Example arange_down : arange 5 0 (-2) = [5; 3; 1] ∧ arange 5 5 1 = [] ∧ arange 6 5 1 = [].
Proof. repeat split. Qed.

Example py_getitem_ex :
  py_getitem [10; 20; 30] (-1) = inr 30
  ∧ py_getitem [10; 20; 30] (-3) = inr 10
  ∧ py_getitem [10; 20; 30] 3 = inl IndexError
  ∧ py_getitem [10; 20; 30] (-4) = inl IndexError.
Proof. repeat split. Qed.

Example where_first_ex :
  where_first [5; 7; 7; 9] 7 = inr 1%nat ∧ where_first [5; 7; 7; 9] 8 = inl IndexError.
Proof. repeat split. Qed.

Example files_mean_ex :
  files_mean =
  ["http://www.esrl.noaa.gov/psd/thredds/dodsC/Datasets/noaa.oisst.v2.highres/sst.day.mean.2010.v2.nc";
   "http://www.esrl.noaa.gov/psd/thredds/dodsC/Datasets/noaa.oisst.v2.highres/sst.day.mean.2011.v2.nc"].
Proof. vm_compute. reflexivity. Qed.

Lemma arange_step1 a b : arange a b 1 = seqZ a (b - a).
Proof.
  unfold arange. rewrite Z.div_1_r.
  replace (- (a - b)) with (b - a) by lia.
  replace (seqZ a (b - a)) with (seqZ (a + 0) (b - a)) by (f_equal; lia).
  rewrite <- fmap_add_seqZ.
  apply list_fmap_ext. intros _ i _. lia.
Qed.

Lemma seqZ_contiguous a n : contiguous (seqZ a n).
Proof.
  intros i x y Hx Hy.
  apply lookup_seqZ in Hx as [-> _]. apply lookup_seqZ in Hy as [-> _]. lia.
Qed.

Lemma last_seqZ a n : 0 < n → last (seqZ a n) = Some (a + n - 1).
Proof.
  intros Hn. rewrite last_lookup, length_seqZ.
  rewrite lookup_seqZ_lt by lia. f_equal. lia.
Qed.

Lemma py_getitem_nonneg {A} (l : list A) (i : nat) :
  py_getitem l (Z.of_nat i) =
  match l !! i with Some a => inr a | None => inl IndexError end.
Proof.
  unfold py_getitem, py_position.
  destruct (Z.ltb_spec (Z.of_nat i) 0) as [?|_]; [lia|].
  destruct (Z.leb_spec 0 (Z.of_nat i)) as [_|?]; [|lia]. simpl.
  destruct (Z.ltb_spec (Z.of_nat i) (Z.of_nat (length l))) as [Hlt|Hge].
  - by rewrite Nat2Z.id.
  - rewrite (lookup_ge_None_2 l i); [done | lia].
Qed.

Lemma py_getitem_first {A} (l : list A) :
  py_getitem l 0 = match head l with Some a => inr a | None => inl IndexError end.
Proof. change 0 with (Z.of_nat 0). rewrite py_getitem_nonneg. by destruct l. Qed.

Lemma py_getitem_last {A} (l : list A) :
  py_getitem l (-1) = match last l with Some a => inr a | None => inl IndexError end.
Proof.
  destruct l as [|a l]; [done|].
  rewrite last_lookup. unfold py_getitem, py_position. cbv zeta.
  change (-1 <? 0) with true. cbv iota.
  set (n := length (a :: l)). assert (n = S (length l)) as Hn by done.
  replace ((0 <=? -1 + Z.of_nat n) && (-1 + Z.of_nat n <? Z.of_nat n)) with true
    by (symmetry; apply andb_true_intro; split; [apply Z.leb_le | apply Z.ltb_lt]; lia).
  by replace (Z.to_nat (-1 + Z.of_nat n)) with (Nat.pred n) by lia.
Qed.

Lemma where_first_elem t v :
  v ∈ t → ∃ i, where_first t v = inr i ∧ t !! i = Some v.
Proof.
  induction t as [|d t IH]; intros Hin; [by apply elem_of_nil in Hin|].
  simpl. destruct (Z.eqb_spec d v) as [->|Hne]; [by exists 0%nat|].
  apply elem_of_cons in Hin as [->|Hin]; [done|].
  destruct (IH Hin) as (i & -> & Hi). by exists (S i).
Qed.

(** ** The ordinal days handed to the detector *)

Lemma length_reduced lat_lo lat_hi lon_lo lon_hi da :
  length (s_values (mean_lon_lat (sel_box lat_lo lat_hi lon_lo lon_hi da)))
  = length (da_values da).
Proof. simpl. by rewrite !length_fmap. Qed.

Lemma daily_ordinals dates d0 :
  head dates = Some d0 → daily dates →
  toordinal <$> dates = seqZ (toordinal d0) (Z.of_nat (length dates)).
Proof.
  revert d0. induction dates as [|d dates IH]; intros d0 Hhd Hd; [done|].
  injection Hhd as ->.
  rewrite seqZ_cons by (simpl; lia). simpl. f_equal.
  destruct dates as [|d' dates]; [done|].
  destruct Hd as [Hnext Hd].
  etrans; [apply (IH d' eq_refl Hd)|]. f_equal; simpl length; lia.
Qed.

Lemma daily_last dates d0 dl :
  head dates = Some d0 → last dates = Some dl → daily dates →
  toordinal dl = toordinal d0 + Z.of_nat (length dates) - 1.
Proof.
  intros Hhd Hl Hd.
  assert (last (toordinal <$> dates) = Some (toordinal dl)) as Hlast
    by (by rewrite fmap_last, Hl).
  rewrite (daily_ordinals dates d0 Hhd Hd) in Hlast.
  destruct dates; [done|].
  rewrite last_seqZ in Hlast by (simpl; lia). by injection Hlast.
Qed.

(** Whenever the first date is not after the last one, [t] runs from the
    first ordinal to the last in steps of one day. *)
Lemma t_of_contiguous dates d0 dl :
  head dates = Some d0 → last dates = Some dl → toordinal d0 ≤ toordinal dl →
  ∃ t, t_of dates = inr t
       ∧ head t = Some (toordinal d0)
       ∧ contiguous t
       ∧ last t = Some (toordinal dl)
       ∧ Z.of_nat (length t) = toordinal dl - toordinal d0 + 1.
Proof.
  intros Hhd Hl Hle. unfold t_of.
  rewrite py_getitem_first, Hhd, py_getitem_last, Hl. simpl.
  eexists; split; [done|]. rewrite arange_step1.
  split_and!.
  - rewrite seqZ_cons by lia. done.
  - apply seqZ_contiguous.
  - rewrite last_seqZ by lia. f_equal. lia.
  - rewrite length_seqZ. lia.
Qed.

(** C1, as amended: for a non-empty, daily sequence of dates (the cadence
    the notebook assumes and does not check) the ordinal days [t] start at
    the first date's ordinal, increase by exactly one, end at the last
    date's ordinal, and are as many as the values of [sst_lc] handed to
    the detector. *)
Theorem t_daily_contiguous (ds : Dataset) (d0 dl : datetime) :
  wf_dataset ds →
  head (ds_time ds) = Some d0 →
  last (ds_time ds) = Some dl →
  daily (ds_time ds) →
  ∃ t, t_of (ds_time ds) = inr t
       ∧ head t = Some (toordinal d0)
       ∧ contiguous t
       ∧ last t = Some (toordinal dl)
       ∧ length t = length (s_values (sst_lc_of ds)).
Proof.
  intros (_ & _ & _ & _ & Hsst & _) Hhd Hl Hd.
  pose proof (daily_last _ _ _ Hhd Hl Hd) as Hord.
  assert (0 < length (ds_time ds))%nat
    by (destruct (ds_time ds); [done | simpl; lia]).
  destruct (t_of_contiguous _ _ _ Hhd Hl) as (t & Ht & H0 & Hc & Hlast & Hlen); [lia|].
  exists t. split_and!; try done.
  unfold sst_lc_of. rewrite length_reduced. simpl. lia.
Qed.

Lemma wf_demo_ds : wf_dataset demo_ds.
Proof. repeat constructor. Qed.

Lemma wf_gappy_ds : wf_dataset gappy_ds.
Proof. repeat constructor. Qed.

Lemma t_daily_contiguous_witness :
  ∃ t, t_of (ds_time demo_ds) = inr t
       ∧ head t = Some 734137
       ∧ contiguous t
       ∧ last t = Some 734139
       ∧ length t = length (s_values (sst_lc_of demo_ds)).
Proof.
  apply (t_daily_contiguous demo_ds (mk_datetime 2010 12 31 0) (mk_datetime 2011 1 2 0)).
  - apply wf_demo_ds.
  - reflexivity.
  - reflexivity.
  - simpl. split; [reflexivity | split; [reflexivity | exact I]].
Defined.

(** C1 as stated fails when a day is missing from the time coordinate:
    [t] fills the gap and is longer than the series of values. *)
Lemma t_longer_than_series :
  wf_dataset gappy_ds
  ∧ t_of (ds_time gappy_ds) = inr [734138; 734139; 734140]
  ∧ length (s_values (sst_lc_of gappy_ds)) = 2%nat
  ∧ length [734138; 734139; 734140] ≠ length (s_values (sst_lc_of gappy_ds)).
Proof. split; [apply wf_gappy_ds | split_and!; [reflexivity.. | discriminate]]. Qed.

(** ** One URL per year, and the time window *)

Lemma string_length_app (s1 s2 : string) :
  String.length (s1 +:+ s2) = (String.length s1 + String.length s2)%nat.
Proof. induction s1 as [|c s1 IH]; simpl; [done | by rewrite IH]. Qed.

Lemma string_app_inj_r (s1 s2 suffix : string) :
  s1 +:+ suffix = s2 +:+ suffix → s1 = s2.
Proof.
  revert s2. induction s1 as [|c s1 IH]; intros [|c' s2] Heq; [done| | |].
  - apply (f_equal String.length) in Heq.
    rewrite !string_length_app in Heq. simpl in Heq. lia.
  - apply (f_equal String.length) in Heq.
    rewrite !string_length_app in Heq. simpl in Heq. lia.
  - simpl in Heq. injection Heq as -> Heq. f_equal. by apply IH.
Qed.

Lemma url_of_inj base : Inj (=) (=) (url_of base).
Proof.
  intros y y' Heq. unfold url_of in Heq.
  apply String.app_inj, String.app_inj, string_app_inj_r in Heq.
  by apply pretty_Z_inj in Heq.
Qed.

Lemma files_of_lookup base y0 y1 (i : nat) :
  (i < Z.to_nat (y1 - y0 + 1))%nat →
  (url_of base <$> py_range y0 (y1 + 1)) !! i = Some (url_of base (y0 + Z.of_nat i)).
Proof.
  intros Hi. unfold py_range.
  rewrite list_lookup_fmap, lookup_seqZ_lt by lia. done.
Qed.

Lemma files_of_NoDup base y0 y1 : NoDup (url_of base <$> py_range y0 (y1 + 1)).
Proof.
  apply NoDup_fmap_2_strong; [|apply NoDup_seqZ].
  intros y y' _ _. apply url_of_inj.
Qed.

Lemma sel_time_in_window lo hi ds :
  Forall (λ d, in_months lo hi d = true) (ds_time (sel_time lo hi ds)).
Proof. apply Forall_forall. intros d Hd. simpl in Hd. by apply list_elem_of_filter in Hd as [? _]. Qed.

Lemma in_months_december_to_may (d : datetime) :
  1 ≤ dt_month d ≤ 12 →
  in_months (2010, 12) (2011, 5) d = true
  ↔ (dt_year d = 2010 ∧ dt_month d = 12) ∨ (dt_year d = 2011 ∧ dt_month d ≤ 5).
Proof.
  intros Hm. unfold in_months, month_index. simpl fst. simpl snd.
  rewrite andb_true_iff, !Z.leb_le. lia.
Qed.

Lemma filter_zip_fst {C A} (keep : C → bool) (coord : list C) (data : list A) :
  length coord = length data →
  filter (λ c, keep c = true) coord
  = fst <$> filter (λ p, keep (fst p) = true) (zip coord data).
Proof.
  revert data. induction coord as [|c coord IH]; intros [|v data] Hlen; try done.
  injection Hlen as Hlen. simpl zip. rewrite !filter_cons. simpl fst.
  destruct (decide (keep c = true)); [rewrite fmap_cons; f_equal|]; by apply IH.
Qed.

(** The kept labels paired with the kept entries are the kept pairs. *)
Lemma sel_axis_zip {C A} (keep : C → bool) (coord : list C) (data : list A) :
  length coord = length data →
  zip (filter (λ c, keep c = true) coord) (sel_axis keep coord data)
  = filter (λ p, keep (fst p) = true) (zip coord data).
Proof.
  intros Hlen. rewrite (filter_zip_fst keep coord data Hlen).
  unfold sel_axis. apply zip_fst_snd.
Qed.

Lemma sel_time_label (ds : Dataset) (d : datetime) :
  1 ≤ dt_month d ≤ 12 →
  d ∈ ds_time (sel_time (2010, 12) (2011, 5) ds)
  ↔ d ∈ ds_time ds
    ∧ ((dt_year d = 2010 ∧ dt_month d = 12) ∨ (dt_year d = 2011 ∧ dt_month d ≤ 5)).
Proof.
  intros Hm. simpl. rewrite list_elem_of_filter, (in_months_december_to_may d Hm). tauto.
Qed.

Lemma sel_time_pairs {A} (time : list datetime) (data : list A) (d : datetime) (g : A) :
  length time = length data →
  1 ≤ dt_month d ≤ 12 →
  (d, g) ∈ zip (filter (λ d, in_months (2010, 12) (2011, 5) d = true) time)
               (sel_axis (in_months (2010, 12) (2011, 5)) time data)
  ↔ (d, g) ∈ zip time data
    ∧ ((dt_year d = 2010 ∧ dt_month d = 12) ∨ (dt_year d = 2011 ∧ dt_month d ≤ 5)).
Proof.
  intros Hlen Hm. rewrite (sel_axis_zip _ _ _ Hlen), list_elem_of_filter. simpl fst.
  rewrite (in_months_december_to_may d Hm). tauto.
Qed.

(** C6: for [start_year ≤ end_year] the adapter builds one mean URL and one
    anomaly URL for each year of [start_year .. end_year], in increasing
    year order and without repetition; and once the files are opened the
    notebook restricts the dataset to the window 2010-12 .. 2011-05 and
    everything that follows runs on the restricted dataset.  The
    restriction keeps a time label exactly when it is a label of the opened
    dataset in December 2010 or in January to May 2011, and keeps with each
    such label the [anom] and [sst] grids the opened dataset has for it,
    and no other grid. *)
Theorem one_url_per_year (y0 y1 : Z) :
  y0 ≤ y1 →
  length (files_mean_of y0 y1) = Z.to_nat (y1 - y0 + 1)
  ∧ length (files_anom_of y0 y1) = Z.to_nat (y1 - y0 + 1)
  ∧ (∀ i : nat, (i < Z.to_nat (y1 - y0 + 1))%nat →
       files_mean_of y0 y1 !! i = Some (url_of base_url_mean (y0 + Z.of_nat i))
       ∧ files_anom_of y0 y1 !! i = Some (url_of base_url_anom (y0 + Z.of_nat i)))
  ∧ NoDup (files_mean_of y0 y1)
  ∧ NoDup (files_anom_of y0 y1)
  ∧ (∀ env ds0 log,
       remote_open env [files_mean; files_anom] = inr ds0 →
       fault env SelTime = None →
       notebook env log
       = analysis env (sel_time (2010, 12) (2011, 5) ds0)
           (log ++ [(OpenMfdataset, Returned); (SelTime, Returned)]))
  ∧ (∀ ds0, Forall (λ d, in_months (2010, 12) (2011, 5) d = true)
              (ds_time (sel_time (2010, 12) (2011, 5) ds0)))
  ∧ (∀ ds0 d, 1 ≤ dt_month d ≤ 12 →
       d ∈ ds_time (sel_time (2010, 12) (2011, 5) ds0)
       ↔ d ∈ ds_time ds0
         ∧ ((dt_year d = 2010 ∧ dt_month d = 12) ∨ (dt_year d = 2011 ∧ dt_month d ≤ 5)))
  ∧ (∀ ds0 d g, wf_dataset ds0 → 1 ≤ dt_month d ≤ 12 →
       ((d, g) ∈ zip (ds_time (sel_time (2010, 12) (2011, 5) ds0))
                     (ds_anom (sel_time (2010, 12) (2011, 5) ds0))
        ↔ (d, g) ∈ zip (ds_time ds0) (ds_anom ds0)
          ∧ ((dt_year d = 2010 ∧ dt_month d = 12) ∨ (dt_year d = 2011 ∧ dt_month d ≤ 5)))
       ∧ ((d, g) ∈ zip (ds_time (sel_time (2010, 12) (2011, 5) ds0))
                       (ds_sst (sel_time (2010, 12) (2011, 5) ds0))
          ↔ (d, g) ∈ zip (ds_time ds0) (ds_sst ds0)
            ∧ ((dt_year d = 2010 ∧ dt_month d = 12) ∨ (dt_year d = 2011 ∧ dt_month d ≤ 5)))).
Proof.
  intros Hle. unfold files_mean_of, files_anom_of.
  split_and!.
  - unfold py_range. rewrite length_fmap, length_seqZ. f_equal. lia.
  - unfold py_range. rewrite length_fmap, length_seqZ. f_equal. lia.
  - intros i Hi. split; by apply files_of_lookup.
  - apply files_of_NoDup.
  - apply files_of_NoDup.
  - intros env ds0 log Hopen Hsel.
    unfold notebook, m_bind, lib, step. rewrite Hopen, Hsel. simpl.
    by rewrite <- app_assoc.
  - intros ds0. apply sel_time_in_window.
  - intros ds0 d Hm. by apply sel_time_label.
  - intros ds0 d g (_ & _ & _ & [Hla _] & [Hls _]) Hm.
    split; by apply sel_time_pairs.
Qed.

Lemma one_url_per_year_witness :
  length (files_mean_of 2010 2011) = 2%nat
  ∧ length (files_anom_of 2010 2011) = 2%nat
  ∧ (∀ i : nat, (i < 2)%nat →
       files_mean_of 2010 2011 !! i = Some (url_of base_url_mean (2010 + Z.of_nat i))
       ∧ files_anom_of 2010 2011 !! i = Some (url_of base_url_anom (2010 + Z.of_nat i)))
  ∧ NoDup (files_mean_of 2010 2011)
  ∧ NoDup (files_anom_of 2010 2011)
  ∧ (∀ env ds0 log,
       remote_open env [files_mean; files_anom] = inr ds0 →
       fault env SelTime = None →
       notebook env log
       = analysis env (sel_time (2010, 12) (2011, 5) ds0)
           (log ++ [(OpenMfdataset, Returned); (SelTime, Returned)]))
  ∧ (∀ ds0, Forall (λ d, in_months (2010, 12) (2011, 5) d = true)
              (ds_time (sel_time (2010, 12) (2011, 5) ds0)))
  ∧ (∀ ds0 d, 1 ≤ dt_month d ≤ 12 →
       d ∈ ds_time (sel_time (2010, 12) (2011, 5) ds0)
       ↔ d ∈ ds_time ds0
         ∧ ((dt_year d = 2010 ∧ dt_month d = 12) ∨ (dt_year d = 2011 ∧ dt_month d ≤ 5)))
  ∧ (∀ ds0 d g, wf_dataset ds0 → 1 ≤ dt_month d ≤ 12 →
       ((d, g) ∈ zip (ds_time (sel_time (2010, 12) (2011, 5) ds0))
                     (ds_anom (sel_time (2010, 12) (2011, 5) ds0))
        ↔ (d, g) ∈ zip (ds_time ds0) (ds_anom ds0)
          ∧ ((dt_year d = 2010 ∧ dt_month d = 12) ∨ (dt_year d = 2011 ∧ dt_month d ≤ 5)))
       ∧ ((d, g) ∈ zip (ds_time (sel_time (2010, 12) (2011, 5) ds0))
                       (ds_sst (sel_time (2010, 12) (2011, 5) ds0))
          ↔ (d, g) ∈ zip (ds_time ds0) (ds_sst ds0)
            ∧ ((dt_year d = 2010 ∧ dt_month d = 12) ∨ (dt_year d = 2011 ∧ dt_month d ≤ 5)))).
Proof. apply (one_url_per_year 2010 2011). lia. Defined.

Example window_ds_restricted :
  sel_time (2010, 12) (2011, 5) window_ds
  = {| ds_time := [mk_datetime 2010 12 1 0; mk_datetime 2011 2 25 0; mk_datetime 2011 5 31 0];
       ds_lat := [(-239 # 8)%Q];
       ds_lon := [(905 # 8)%Q];
       ds_anom := all_sea [[[2]]; [[3]]; [[4]]]%Q;
       ds_sst := all_sea [[[22]]; [[23]]; [[24]]]%Q |}.
Proof. reflexivity. Qed.

(** ** The largest event *)

Lemma Qle_bool_false (a b : Q) : Qle_bool a b = false → (b <= a)%Q.
Proof.
  intros Hf. apply Qlt_le_weak, Qnot_le_lt. intros Hle.
  apply Qle_bool_iff in Hle. congruence.
Qed.

Lemma argmax_from_spec (l : list Q) :
  ∀ bi b i,
    ∃ m, (argmax_from bi b i l = bi ∧ m = b
          ∨ ∃ k, argmax_from bi b i l = (i + k)%nat ∧ l !! k = Some m)
         ∧ (b <= m)%Q
         ∧ Forall (λ v, (v <= m)%Q) l.
Proof.
  induction l as [|v l IH]; intros bi b i; simpl.
  - exists b. split_and!; [by left | apply Qle_refl | constructor].
  - destruct (Qle_bool v b) eqn:Hvb.
    + destruct (IH bi b (S i)) as (m & Hpos & Hb & Hall).
      exists m. split_and!; [ | done | ].
      * destruct Hpos as [?|(k & -> & Hk)]; [by left|].
        right. exists (S k). split; [lia | done].
      * constructor; [|done]. apply Qle_bool_iff in Hvb. by eapply Qle_trans.
    + destruct (IH i v (S i)) as (m & Hpos & Hb & Hall).
      apply Qle_bool_false in Hvb.
      exists m. split_and!; [ | by eapply Qle_trans | by constructor ].
      right. destruct Hpos as [[-> ->]|(k & -> & Hk)].
      * exists 0%nat. split; [lia | done].
      * exists (S k). split; [lia | done].
Qed.

(** C3: on a non-empty event collection, [ev = np.argmax(mhws['intensity_max'])]
    is the position of an event whose peak intensity is at least the peak
    intensity of every event of the collection. *)
Theorem ev_is_largest (mhws : MHWs) :
  intensity_max mhws ≠ [] →
  ∃ ev m, argmax (intensity_max mhws) = inr ev
          ∧ intensity_max mhws !! ev = Some m
          ∧ ∀ j v, intensity_max mhws !! j = Some v → (v <= m)%Q.
Proof.
  intros Hne. destruct (intensity_max mhws) as [|v l]; [done|]. simpl.
  destruct (argmax_from_spec l 0%nat v 1%nat) as (m & Hpos & Hv & Hall).
  exists (argmax_from 0 v 1 l), m. split_and!; [done | |].
  - destruct Hpos as [[-> ->]|(k & -> & Hk)]; done.
  - intros [|j] w Hw; simpl in Hw.
    + by injection Hw as <-.
    + rewrite Forall_lookup in Hall. by eapply Hall.
Qed.

Lemma ev_is_largest_witness :
  ∃ ev m, argmax [1 # 2; 5 # 2; 2; 5 # 2]%Q = inr ev
          ∧ [1 # 2; 5 # 2; 2; 5 # 2]%Q !! ev = Some m
          ∧ ∀ j v, [1 # 2; 5 # 2; 2; 5 # 2]%Q !! j = Some v → (v <= m)%Q.
Proof.
  apply (ev_is_largest (mk_MHWs [] [] [] [1 # 2; 5 # 2; 2; 5 # 2]%Q [] [])).
  simpl. discriminate.
Defined.

Example argmax_first_of_ties : argmax [1 # 2; 5 # 2; 2; 5 # 2]%Q = inr 1%nat.
Proof. reflexivity. Qed.

(** ** Which events are shaded, and the lookups of their days *)

Lemma neighbour_indices_pair ev : neighbour_indices ev = [ev - 1; ev].
Proof.
  unfold neighbour_indices. rewrite arange_step1.
  replace (ev + 1 - (ev - 1)) with 2 by lia.
  rewrite seqZ_cons by lia. rewrite seqZ_cons by (simpl; lia).
  rewrite seqZ_nil by (simpl; lia). f_equal. f_equal. lia.
Qed.

(** X19: the neighbour loop visits exactly the positions [ev - 1] and
    [ev], never the index [ev + 1]; for [ev = 0] the position
    [ev - 1 = -1] reads the last entry of the event columns (an
    [IndexError] only when there is no event at all); so the event after
    the largest one is reached by the loop exactly when [ev = 0] and there
    are two events, the index [-1] then denoting it. *)
Theorem neighbour_loop_positions (ev : Z) :
  neighbour_indices ev = [ev - 1; ev]
  ∧ ((ev + 1) ∉ neighbour_indices ev)
  ∧ (∀ t mhws, shade_neighbours t mhws ev = shade_all t mhws [ev - 1; ev])
  ∧ (∀ mhws,
       py_getitem (time_start mhws) (0 - 1)
       = match last (time_start mhws) with Some s => inr s | None => inl IndexError end
       ∧ py_getitem (time_end mhws) (0 - 1)
         = match last (time_end mhws) with Some e => inr e | None => inl IndexError end)
  ∧ (∀ n, 0 ≤ ev → ev + 1 < n →
       (∃ ev0, ev0 ∈ neighbour_indices ev ∧ py_position n ev0 = ev + 1)
       ↔ ev = 0 ∧ n = 2).
Proof.
  split_and!.
  - apply neighbour_indices_pair.
  - rewrite neighbour_indices_pair, !elem_of_cons, elem_of_nil. lia.
  - intros t mhws. unfold shade_neighbours. by rewrite neighbour_indices_pair.
  - intros mhws. split; apply py_getitem_last.
  - intros n Hev Hn. rewrite neighbour_indices_pair. unfold py_position. split.
    + intros (ev0 & Hin & Hpos).
      rewrite !elem_of_cons, elem_of_nil in Hin.
      destruct (Z.ltb_spec ev0 0); lia.
    + intros [-> ->]. exists (-1). split; [by left | done].
Qed.

(** C9: the loop announced as shading the heatwaves before and after the
    largest one runs over [ev - 1] and [ev] only, and with two events of
    which the first is the largest ([ev = 0]) its first pass reads position
    [-1], that is the second event, the one right after the largest, and
    shades its days [3 .. 5]; the second pass shades the largest event
    itself. *)
Lemma event_after_largest_shaded :
  argmax (intensity_max two_events) = inr 0%nat
  ∧ shade_range [10; 11; 12; 13; 14; 15] two_events (0 + 1) = inr (3, 5)%nat
  ∧ shade_neighbours [10; 11; 12; 13; 14; 15] two_events 0 = inr [(3, 5); (0, 1)]%nat.
Proof. split_and!; reflexivity. Qed.

Lemma py_getitem_in_range {A} (l : list A) (i : Z) :
  (- Z.of_nat (length l)) ≤ i < Z.of_nat (length l) →
  ∃ a, py_getitem l i = inr a ∧ a ∈ l.
Proof.
  intros Hi. unfold py_getitem, py_position. cbv zeta.
  set (j := if i <? 0 then i + Z.of_nat (length l) else i).
  assert (0 ≤ j < Z.of_nat (length l)) as Hj
    by (subst j; destruct (Z.ltb_spec i 0); lia).
  replace ((0 <=? j) && (j <? Z.of_nat (length l))) with true
    by (symmetry; apply andb_true_intro; split; [apply Z.leb_le | apply Z.ltb_lt]; lia).
  destruct (lookup_lt_is_Some_2 l (Z.to_nat j)) as [a Ha]; [lia|].
  exists a. rewrite Ha. split; [done|]. by eapply list_elem_of_lookup_2.
Qed.

Lemma argmax_lt (l : list Q) (ev : nat) : argmax l = inr ev → (ev < length l)%nat.
Proof.
  destruct l as [|v l]; [done|]. simpl. intros [= <-].
  destruct (argmax_from_spec l 0%nat v 1%nat) as (m & [[-> _]|(k & -> & Hk)] & _).
  - lia.
  - apply lookup_lt_Some in Hk. lia.
Qed.

Lemma where_first_arange (a b s : Z) :
  a ≤ s ≤ b →
  ∃ i, where_first (arange a (b + 1) 1) s = inr i ∧ arange a (b + 1) 1 !! i = Some s.
Proof.
  intros Hs. apply where_first_elem.
  rewrite arange_step1. apply elem_of_seqZ. lia.
Qed.

(** C10: for every position used in plotting ([ev - 1] and [ev] in the
    neighbour loop, [ev] for the largest event) the two lookups
    [np.where(t == mhws['time_start'][..])[0][0]] and
    [np.where(t == mhws['time_end'][..])[0][0]] succeed, given the
    detector's invariant that the start and end days of every event lie
    between the ordinals of the first and the last date. *)
Theorem plot_lookups_succeed
    (dates : list datetime) (d0 dl : datetime) (mhws : MHWs) (ev : nat) (ev0 : Z) :
  py_getitem dates 0 = inr d0 →
  py_getitem dates (-1) = inr dl →
  length (time_start mhws) = length (intensity_max mhws) →
  length (time_end mhws) = length (intensity_max mhws) →
  Forall (λ s, toordinal d0 ≤ s ≤ toordinal dl) (time_start mhws) →
  Forall (λ e, toordinal d0 ≤ e ≤ toordinal dl) (time_end mhws) →
  argmax (intensity_max mhws) = inr ev →
  ev0 ∈ neighbour_indices (Z.of_nat ev) ∨ ev0 = Z.of_nat ev →
  ∃ t s e t1 t2,
    t_of dates = inr t
    ∧ py_getitem (time_start mhws) ev0 = inr s
    ∧ where_first t s = inr t1 ∧ t !! t1 = Some s
    ∧ py_getitem (time_end mhws) ev0 = inr e
    ∧ where_first t e = inr t2 ∧ t !! t2 = Some e
    ∧ shade_range t mhws ev0 = inr (t1, t2).
Proof.
  intros Hd0 Hdl Hls Hle Hs He Hev Hev0.
  apply argmax_lt in Hev.
  assert ((- Z.of_nat (length (intensity_max mhws))) ≤ ev0
          < Z.of_nat (length (intensity_max mhws))) as Hrange.
  { destruct Hev0 as [Hin| ->]; [|lia].
    rewrite neighbour_indices_pair, !elem_of_cons, elem_of_nil in Hin. lia. }
  destruct (py_getitem_in_range (time_start mhws) ev0) as (s & Hgs & Hins);
    [by rewrite Hls|].
  destruct (py_getitem_in_range (time_end mhws) ev0) as (e & Hge & Hine);
    [by rewrite Hle|].
  rewrite Forall_forall in Hs, He.
  destruct (where_first_arange (toordinal d0) (toordinal dl) s (Hs s Hins))
    as (t1 & Ht1 & Hl1).
  destruct (where_first_arange (toordinal d0) (toordinal dl) e (He e Hine))
    as (t2 & Ht2 & Hl2).
  exists (arange (toordinal d0) (toordinal dl + 1) 1), s, e, t1, t2.
  unfold t_of, shade_range. rewrite Hd0, Hdl, Hgs, Hge. simpl.
  rewrite Ht1. simpl. rewrite Ht2. done.
Qed.

Lemma plot_lookups_succeed_witness :
  ∃ t s e t1 t2,
    t_of (ds_time demo_ds) = inr t
    ∧ py_getitem [734138; 734137] (-1) = inr s
    ∧ where_first t s = inr t1 ∧ t !! t1 = Some s
    ∧ py_getitem [734139; 734137] (-1) = inr e
    ∧ where_first t e = inr t2 ∧ t !! t2 = Some e
    ∧ shade_range t
        (mk_MHWs [734138; 734137] [734139; 734137] [2; 1] [3; 1]%Q [3; 1]%Q [5; 1]%Q)
        (-1)
      = inr (t1, t2).
Proof.
  apply (plot_lookups_succeed (ds_time demo_ds)
           (mk_datetime 2010 12 31 0) (mk_datetime 2011 1 2 0)
           (mk_MHWs [734138; 734137] [734139; 734137] [2; 1] [3; 1]%Q [3; 1]%Q [5; 1]%Q)
           0%nat (-1)).
  - reflexivity.
  - reflexivity.
  - reflexivity.
  - reflexivity.
  - repeat constructor; vm_compute; discriminate.
  - repeat constructor; vm_compute; discriminate.
  - reflexivity.
  - left. vm_compute. left.
Defined.

(** ** The spatial reducer *)

(** Selection along an axis, by position. *)
Lemma sel_axis_positions {C A} (keep : C → bool) (coord : list C) (data : list A) :
  sel_axis keep coord data
  = seq 0 (length coord) ≫= λ j,
      match coord !! j, data !! j with
      | Some c, Some v => if keep c then [v] else []
      | _, _ => []
      end.
Proof.
  revert data. induction coord as [|c coord IH]; intros data; [done|].
  simpl length. rewrite <- cons_seq, bind_cons, <- fmap_S_seq, list_fmap_bind.
  destruct data as [|v data].
  - simpl. symmetry. clear IH. induction (seq 0 (length coord)) as [|j l IHl]; [done|].
    rewrite bind_cons, IHl. simpl. by destruct (coord !! j).
  - unfold sel_axis in *. simpl zip. rewrite filter_cons. simpl fst.
    simpl. destruct (keep c) eqn:Hk.
    + rewrite decide_True by done. simpl. f_equal. apply (IH data).
    + rewrite decide_False by done. simpl. apply (IH data).
Qed.

Lemma bind_nil_const {A B} (l : list A) : l ≫= (λ _, @nil B) = [].
Proof. induction l as [|a l IH]; [done|]. by rewrite bind_cons, IH. Qed.

Lemma concat_fmap_bind {A B} (f : A → list B) (l : list A) :
  concat (f <$> l) = l ≫= f.
Proof.
  induction l as [|a l IH]; [done|].
  rewrite fmap_cons, bind_cons. change (f a ++ concat (f <$> l) = f a ++ l ≫= f).
  by rewrite IH.
Qed.

Lemma list_bind_bind {A B C} (f : A → list B) (g : B → list C) (l : list A) :
  (l ≫= f) ≫= g = l ≫= λ a, f a ≫= g.
Proof.
  induction l as [|a l IH]; [done|]. by rewrite !bind_cons, bind_app, IH.
Qed.

(** The cells kept by [sel_box] at one time step, flattened, are the cells
    of the box. *)
Lemma sel_box_cells lat_lo lat_hi lon_lo lon_hi (lat lon : list Q)
    (grid : list (list (option Q))) :
  concat (sel_axis (in_slice lon_lo lon_hi) lon
            <$> sel_axis (in_slice lat_lo lat_hi) lat grid)
  = box_cells lat_lo lat_hi lon_lo lon_hi lat lon grid.
Proof.
  rewrite concat_fmap_bind, (sel_axis_positions _ lat grid), list_bind_bind.
  unfold box_cells. apply list_bind_ext; [|done]. intros j.
  destruct (lat !! j) as [la|]; simpl; [|by rewrite bind_nil_const].
  destruct (grid !! j) as [row|]; simpl.
  - destruct (in_slice lat_lo lat_hi la); simpl.
    + rewrite app_nil_r. apply sel_axis_positions.
    + symmetry. etrans; [|apply (bind_nil_const (seq 0 (length lon)))].
      apply list_bind_ext; [|done]. intros k.
      by destruct (lon !! k), (row !! k).
  - symmetry. etrans; [|apply (bind_nil_const (seq 0 (length lon)))].
    apply list_bind_ext; [|done]. intros k. by destruct (lon !! k).
Qed.

Lemma reduced_lookup lat_lo lat_hi lon_lo lon_hi da (i : nat) grid :
  da_values da !! i = Some grid →
  s_values (mean_lon_lat (sel_box lat_lo lat_hi lon_lo lon_hi da)) !! i
  = Some (nanmean (box_cells lat_lo lat_hi lon_lo lon_hi (da_lat da) (da_lon da) grid)).
Proof.
  intros Hg. simpl. rewrite !list_lookup_fmap, Hg. simpl.
  by rewrite sel_box_cells.
Qed.

(** What [nanmean] returns is the arithmetic mean of the cells that are
    not NaN, and NaN when there is none. *)
Lemma nanmean_is_mean_of cells : is_mean_of cells (nanmean cells).
Proof.
  unfold is_mean_of, nanmean, valid_cells.
  destruct (omap id cells) as [|v rest]; [done|]. split; [done|].
  unfold Qsum. set (l := v :: rest).
  assert (¬ (inject_Z (Z.of_nat (length l)) == 0)%Q) as Hn.
  { unfold Qeq. simpl. lia. }
  by field.
Qed.

(** Without a masked cell the mean is over all the cells. *)
Lemma is_mean_of_unmasked (vals : list Q) (value : option Q) :
  vals ≠ [] → is_mean_of (Some <$> vals) value →
  ∃ v, value = Some v
       ∧ (v * inject_Z (Z.of_nat (length vals)) == foldr Qplus 0 vals)%Q.
Proof.
  intros Hne.
  assert (omap id (Some <$> vals) = vals) as Hall.
  { clear. induction vals as [|w vals IH]; [done|]. simpl. by f_equal. }
  unfold is_mean_of. destruct value as [v|]; rewrite Hall; [|done].
  intros [_ Hv]. by exists v.
Qed.

(** C4: on a well-formed dataset, at every time step the Niño 3.4 series
    is the arithmetic mean of the anomaly cells with latitude in [-5, 5]
    and longitude in [190, 240] (of those that are not NaN: masked cells
    are skipped, and the value is NaN when the box holds no other); the
    result keeps the time coordinate only, one value per time step.
    Likewise [sst_lc] is the mean of the [sst] cells with latitude in
    [-32, -26] and longitude in [112, 115]. *)
Theorem reducer_is_box_mean (ds : Dataset) :
  wf_dataset ds →
  (s_time (sst_anom_nino34_of ds) = ds_time ds
   ∧ length (s_values (sst_anom_nino34_of ds)) = length (ds_time ds)
   ∧ ∀ (i : nat) grid,
       ds_anom ds !! i = Some grid →
       ∃ value,
         s_values (sst_anom_nino34_of ds) !! i = Some value
         ∧ is_mean_of (box_cells (-5) 5 190 240 (ds_lat ds) (ds_lon ds) grid) value)
  ∧ (s_time (sst_lc_of ds) = ds_time ds
     ∧ length (s_values (sst_lc_of ds)) = length (ds_time ds)
     ∧ ∀ (i : nat) grid,
         ds_sst ds !! i = Some grid →
         ∃ value,
           s_values (sst_lc_of ds) !! i = Some value
           ∧ is_mean_of (box_cells (-32) (-26) 112 115 (ds_lat ds) (ds_lon ds) grid) value).
Proof.
  intros (_ & _ & _ & [Ha _] & [Hs _]).
  unfold sst_anom_nino34_of, sst_lc_of. split_and!; try done.
  - by rewrite length_reduced.
  - intros i grid Hg. eexists. split; [by apply (reduced_lookup _ _ _ _ (anom ds))|].
    apply nanmean_is_mean_of.
  - by rewrite length_reduced.
  - intros i grid Hg. eexists. split; [by apply (reduced_lookup _ _ _ _ (sst ds))|].
    apply nanmean_is_mean_of.
Qed.

Lemma wf_pacific_ds : wf_dataset pacific_ds.
Proof. repeat constructor. Qed.

Lemma reducer_is_box_mean_witness :
  (s_time (sst_anom_nino34_of pacific_ds) = ds_time pacific_ds
   ∧ length (s_values (sst_anom_nino34_of pacific_ds)) = length (ds_time pacific_ds)
   ∧ ∀ (i : nat) grid,
       ds_anom pacific_ds !! i = Some grid →
       ∃ value,
         s_values (sst_anom_nino34_of pacific_ds) !! i = Some value
         ∧ is_mean_of
             (box_cells (-5) 5 190 240 (ds_lat pacific_ds) (ds_lon pacific_ds) grid) value)
  ∧ (s_time (sst_lc_of pacific_ds) = ds_time pacific_ds
     ∧ length (s_values (sst_lc_of pacific_ds)) = length (ds_time pacific_ds)
     ∧ ∀ (i : nat) grid,
         ds_sst pacific_ds !! i = Some grid →
         ∃ value,
           s_values (sst_lc_of pacific_ds) !! i = Some value
           ∧ is_mean_of
               (box_cells (-32) (-26) 112 115 (ds_lat pacific_ds) (ds_lon pacific_ds) grid)
               value).
Proof. apply (reducer_is_box_mean pacific_ds). apply wf_pacific_ds. Defined.

(** On the sample grid the Nino 3.4 box holds four cells of which one is
    masked: the index is the mean of the other three. *)
Example nino34_skips_masked_cell :
  box_cells (-5) 5 190 240 (ds_lat pacific_ds) (ds_lon pacific_ds)
    [[Some 2; Some 9; Some 9]; [Some 9; Some (1 # 2); None]; [Some 9; Some 1; Some (3 # 2)]]%Q
  = [Some (1 # 2); None; Some 1; Some (3 # 2)]%Q
  ∧ ∃ v0 v1, s_values (sst_anom_nino34_of pacific_ds) = [Some v0; Some v1]
             ∧ (v0 == 1)%Q ∧ (v1 == 2)%Q.
Proof.
  split; [vm_compute; reflexivity|].
  eexists _, _. split; [vm_compute; reflexivity|]. split; reflexivity.
Qed.

Example sst_lc_pacific :
  ∃ v0 v1, s_values (sst_lc_of pacific_ds) = [Some v0; Some v1]
           ∧ (v0 == 24)%Q ∧ (v1 == 25)%Q.
Proof. eexists _, _. split; [vm_compute; reflexivity|]. split; reflexivity. Qed.

(** A box that holds no cell gives NaN at every time step. *)
Example empty_box_is_nan :
  s_values (sst_anom_nino34_of demo_ds) = [None; None; None].
Proof. vm_compute. reflexivity. Qed.

Example sst_lc_demo :
  ∃ v0 v1 v2, s_values (sst_lc_of demo_ds) = [Some v0; Some v1; Some v2]
              ∧ (v0 == 45 # 2)%Q ∧ (v1 == 47 # 2)%Q ∧ (v2 == 49 # 2)%Q.
Proof. eexists _, _, _. split; [vm_compute; reflexivity|]. repeat split. Qed.

Example box_excludes_cells :
  box_cells (-5) 5 190 240 [-6; -5; 0; 5; 6]%Q [189; 190; 240; 241]%Q
    ((λ row : list Q, Some <$> row) <$>
     [[1; 2; 3; 4]; [5; 6; 7; 8]; [9; 10; 11; 12]; [13; 14; 15; 16]; [17; 18; 19; 20]]%Q)
  = Some <$> [6; 7; 10; 11; 14; 15]%Q.
Proof. reflexivity. Qed.

(** ** Failures propagate *)

Lemma runs_ret {A} (a : A) : runs [] (m_ret a).
Proof. intros log. exists []. by rewrite app_nil_r. Qed.

Lemma runs_step {A} (st : Stage) (r : Err A) : runs [st] (step st r).
Proof.
  intros log. unfold step. destruct r as [e|a]; simpl.
  - exists [], st. split_and!; [done | constructor | done].
  - exists [(st, Returned)]. split_and!; [done | by repeat constructor | done].
Qed.

Lemma runs_lib {A} env (st : Stage) (v : A) : runs [st] (lib env st v).
Proof. apply runs_step. Qed.

Lemma runs_bind {A B} (n : nat) (sts : list Stage) (m : M A) (f : A → M B) :
  runs (take n sts) m →
  (∀ a, runs (drop n sts) (f a)) →
  runs sts (m_bind m f).
Proof.
  intros Hm Hf log. unfold m_bind. specialize (Hm log).
  destruct (m log) as [log1 [e|a]].
  - destruct Hm as (pre & st & -> & Hpre & Hpx).
    exists pre, st. split_and!; [done..|].
    etrans; [exact Hpx|]. apply prefix_take.
  - destruct Hm as (new & -> & Hnew & Hsts).
    specialize (Hf a (log ++ new)).
    destruct (f a (log ++ new)) as [log2 [e|b]].
    + destruct Hf as (pre & st & -> & Hpre & Hpx).
      exists (new ++ pre), st. split_and!.
      * by rewrite <- !app_assoc.
      * by apply Forall_app.
      * destruct Hpx as [k Hk]. exists k.
        transitivity (take n sts ++ drop n sts); [by rewrite take_drop|].
        rewrite Hk, fmap_app, Hsts. by rewrite <- !app_assoc.
    + destruct Hf as (new' & -> & Hnew' & Hsts').
      exists (new ++ new'). split_and!.
      * by rewrite <- app_assoc.
      * by apply Forall_app.
      * by rewrite fmap_app, Hsts, Hsts', take_drop.
Qed.

Lemma runs_reduce env b bounds da : runs [SelBox b; MeanBox b] (reduce env b bounds da).
Proof.
  destruct bounds as [[[lat_lo lat_hi] lon_lo] lon_hi]. unfold reduce.
  apply (runs_bind 1); [apply runs_lib | intros boxed; apply runs_lib].
Qed.

Lemma runs_shade env t mhws w ev0 : runs [Lookup w; Fill w] (shade env t mhws w ev0).
Proof.
  unfold shade. apply (runs_bind 1); [apply runs_step | intros r].
  apply (runs_bind 1); [apply runs_lib | intros _; apply runs_ret].
Qed.

Lemma runs_neighbour_loop env t mhws ev :
  runs [Lookup (Neighbour 0); Fill (Neighbour 0); Lookup (Neighbour 1); Fill (Neighbour 1)]
    (m_for 0 (neighbour_indices ev) (λ k ev0, shade env t mhws (Neighbour k) ev0)).
Proof.
  rewrite neighbour_indices_pair. simpl.
  apply (runs_bind 2); [apply runs_shade | intros r0].
  apply (runs_bind 2); [|intros rs; apply runs_ret].
  apply (runs_bind 2); [apply runs_shade | intros r1].
  apply (runs_bind 0); [apply runs_ret | intros rs; apply runs_ret].
Qed.

Ltac run_one :=
  first
    [ apply (runs_bind 1); cbn [take drop];
      [first [apply runs_step | apply runs_lib] | intros ? ]
    | apply (runs_bind 2); cbn [take drop];
      [first [apply runs_reduce | apply runs_shade] | intros ? ]
    | apply (runs_bind 4); cbn [take drop];
      [apply runs_neighbour_loop | intros ? ] ].

Lemma runs_notebook env : runs script (notebook env).
Proof.
  unfold notebook, script.
  do 2 run_one. unfold analysis.
  repeat run_one.
  match goal with out : (MHWs * Clim)%type |- _ => destruct out as [mhws clim] end.
  repeat run_one.
  apply runs_ret.
Qed.

Lemma script_NoDup : NoDup script.
Proof. apply (bool_decide_unpack _). vm_compute. reflexivity. Qed.

Lemma last_not_before {A} (l1 l2 : list A) (x : A) :
  NoDup (l1 ++ l2) → l2 ≠ [] → last (l1 ++ l2) = Some x → x ∉ l1.
Proof.
  intros Hnd Hne Hlast Hin.
  apply NoDup_app in Hnd as (_ & Hdisj & _). apply (Hdisj x Hin).
  destruct l2 as [|y l2]; [done|].
  rewrite last_app in Hlast. simpl in Hlast.
  destruct (last (y :: l2)) as [z|] eqn:Hz.
  - injection Hlast as <-. rewrite last_lookup in Hz. by eapply list_elem_of_lookup_2.
  - by apply last_None in Hz.
Qed.

(** C7: nothing in the notebook catches an exception. Whatever operation
    raises (opening the dataset, a slice, an average, the detector call,
    a lookup), it is the last operation run, the notebook's result is that
    very error, every earlier operation has returned and has run only
    once (no retry), and [plt.savefig] has not run (no partial result); the
    notebook returns a figure only when every operation has returned. *)
Theorem failures_propagate (env : Environment) :
  let '(log, r) := notebook env [] in
  NoDup (fst <$> log)
  ∧ fst <$> log `prefix_of` script
  ∧ (∀ st e, (st, Raised e) ∈ log → r = inl e)
  ∧ match r with
    | inl e =>
        ∃ pre st, log = pre ++ [(st, Raised e)]
                  ∧ Forall returned pre
                  ∧ Savefig ∉ fst <$> pre
    | inr _ => Forall returned log ∧ fst <$> log = script
    end.
Proof.
  pose proof (runs_notebook env []) as Hrun.
  destruct (notebook env []) as [log [e|fig]]; simpl in Hrun.
  - destruct Hrun as (pre & st & -> & Hpre & Hpx).
    assert ((pre ++ [(st, Raised e)]).*1 = pre.*1 ++ [st]) as Hfst
      by (by rewrite fmap_app).
    assert (NoDup (pre.*1 ++ [st])) as Hnd.
    { destruct Hpx as [k Hk]. pose proof script_NoDup as Hs.
      rewrite Hk in Hs. by apply NoDup_app in Hs as [? _]. }
    rewrite Hfst. split_and!; [done | done | |].
    + intros st' e' Hin. apply elem_of_app in Hin as [Hin|Hin].
      * rewrite Forall_forall in Hpre. by specialize (Hpre _ Hin).
      * apply list_elem_of_singleton in Hin. by injection Hin as _ ->.
    + exists pre, st. split_and!; [done..|].
      destruct Hpx as [k Hk]. pose proof script_NoDup as Hs. rewrite Hk in Hs.
      rewrite <- app_assoc in Hs, Hk.
      apply (last_not_before _ ([st] ++ k) _ Hs); [done|].
      by rewrite <- Hk.
  - destruct Hrun as (new & -> & Hnew & Hsts).
    rewrite Hsts. split_and!; [apply script_NoDup | done | | done | done].
    intros st e Hin. rewrite Forall_forall in Hnew. by specialize (Hnew _ Hin).
Qed.

Example detector_failure_ends_the_run :
  notebook env_detector_fails []
  = ([(OpenMfdataset, Returned); (SelTime, Returned);
      (SelBox Nino34, Returned); (MeanBox Nino34, Returned);
      (SelBox LeeuwinSst, Returned); (MeanBox LeeuwinSst, Returned);
      (SelBox LeeuwinAnom, Returned); (MeanBox LeeuwinAnom, Returned);
      (TimeValues, Returned); (DatesFirst, Returned); (DatesLast, Returned);
      (SstValues, Returned);
      (Detect, Raised (External "series too short"))],
     inl (External "series too short")).
Proof. reflexivity. Qed.

(** ** The modelled detector *)

Example spike_events :
  detect_events example_detector spike_t spike_x = [(2, 3)]%nat.
Proof. vm_compute. reflexivity. Qed.

Example spike_columns :
  (detect example_detector spike_t spike_x).1
  = {| time_start := [734139];
       time_end := [734140];
       duration := [2];
       intensity_max := [40 # 10]%Q;
       intensity_mean := [700 # 200]%Q;
       intensity_cumulative := [700 # 100]%Q |}.
Proof. vm_compute. reflexivity. Qed.

Lemma chain_weaken lo lo' hi rs : (lo' ≤ lo)%nat → chain lo hi rs → chain lo' hi rs.
Proof. destruct rs as [|[a b] rs]; [done|]. simpl. intros ? [? ?]. split; [lia | done]. Qed.

Lemma chain_elem lo hi rs a b :
  chain lo hi rs → (a, b) ∈ rs → (lo ≤ a ∧ a ≤ b ∧ b < hi)%nat.
Proof.
  revert lo. induction rs as [|[a' b'] rs IH]; intros lo Hc Hin.
  - by apply elem_of_nil in Hin.
  - destruct Hc as [Hab Hc]. apply elem_of_cons in Hin as [[= -> ->]|Hin]; [done|].
    specialize (IH _ Hc Hin). lia.
Qed.

Lemma runs_from_chain flags :
  ∀ i cur,
    match cur with Some (a, b) => (a ≤ b ∧ S b = i)%nat | None => True end →
    chain (match cur with Some (a, _) => a | None => i end)
      (i + length flags) (runs_from i cur flags).
Proof.
  induction flags as [|f flags IH]; intros i cur Hcur.
  - destruct cur as [[a b]|]; simpl; [|done]. split; [lia | done].
  - simpl runs_from. destruct f.
    + replace (i + length (true :: flags))%nat with (S i + length flags)%nat
        by (simpl; lia).
      destruct cur as [[a b]|].
      * apply (IH (S i) (Some (a, i))). lia.
      * apply (chain_weaken i); [lia|]. apply (IH (S i) (Some (i, i))). lia.
    + replace (i + length (false :: flags))%nat with (S i + length flags)%nat
        by (simpl; lia).
      destruct cur as [[a b]|]; simpl.
      * split; [lia|]. apply (chain_weaken (S i)); [lia|]. by apply (IH (S i) None).
      * apply (chain_weaken (S i)); [lia|]. by apply (IH (S i) None).
Qed.

Lemma merge_runs_chain join lo hi rs :
  chain lo hi rs → chain lo hi (merge_runs join rs).
Proof.
  revert lo. induction rs as [|[a b] rs IH]; intros lo Hc; [done|].
  destruct Hc as [Hab Hc]. specialize (IH _ Hc). simpl.
  destruct (merge_runs join rs) as [|[a' b'] out]; [by split|].
  destruct IH as [Hab' Hout].
  destruct (join (a' - b - 1)%nat); simpl; [split; [lia | done]|].
  split; [lia|]. split; [lia | done].
Qed.

Lemma filter_chain (P : nat * nat → Prop) `{∀ r, Decision (P r)} lo hi rs :
  chain lo hi rs → chain lo hi (filter P rs).
Proof.
  revert lo. induction rs as [|[a b] rs IH]; intros lo Hc; [done|].
  destruct Hc as [Hab Hc]. specialize (IH _ Hc).
  rewrite filter_cons. destruct (decide (P (a, b))).
  - by split.
  - apply (chain_weaken (S b)); [lia | done].
Qed.

Lemma detect_events_chain D t x :
  chain 0 (length (detect_flags D t x)) (detect_events D t x).
Proof.
  unfold detect_events. apply filter_chain, merge_runs_chain.
  apply (runs_from_chain _ 0%nat None I).
Qed.

(** Every event lies inside the part of the series that has a day, a
    value and a seasonal mean. *)
Lemma detect_events_bounds D t x a b :
  aligned D → (a, b) ∈ detect_events D t x →
  (a ≤ b)%nat ∧ (b < length t)%nat ∧ (b < length (deviations D t x))%nat.
Proof.
  intros [Hseas _] Hin.
  pose proof (chain_elem _ _ _ _ _ (detect_events_chain D t x) Hin) as (_ & Hab & Hb).
  unfold detect_flags, detect_thresh in Hb. rewrite !length_zip_with in Hb.
  unfold deviations. rewrite length_zip_with.
  unfold detect_seas in *. rewrite Hseas, length_zip in *. lia.
Qed.

Lemma contiguous_offset t (i j : nat) a b :
  contiguous t → t !! i = Some a → t !! (i + j)%nat = Some b → b = a + Z.of_nat j.
Proof.
  intros Hc Hi. revert b. induction j as [|j IH]; intros b Hj.
  - rewrite Nat.add_0_r in Hj. simplify_eq. lia.
  - replace (i + S j)%nat with (S (i + j)) in Hj by lia.
    destruct (lookup_lt_is_Some_2 t (i + j)) as [c Hcj];
      [apply lookup_lt_Some in Hj; lia|].
    rewrite (Hc _ _ _ Hcj Hj), (IH c Hcj). lia.
Qed.

Lemma qmax_cases a b :
  (qmax a b = a ∨ qmax a b = b) ∧ (a <= qmax a b)%Q ∧ (b <= qmax a b)%Q.
Proof.
  unfold qmax. destruct (Qle_bool a b) eqn:Hab.
  - apply Qle_bool_iff in Hab. split_and!; [by right | done | apply Qle_refl].
  - apply Qle_bool_false in Hab. split_and!; [by left | apply Qle_refl | done].
Qed.

Lemma foldl_qmax_spec l v :
  foldl qmax v l ∈ v :: l
  ∧ (v <= foldl qmax v l)%Q
  ∧ Forall (λ w, (w <= foldl qmax v l)%Q) l.
Proof.
  revert v. induction l as [|w l IH]; intros v; simpl.
  - split_and!; [by left | apply Qle_refl | constructor].
  - destruct (IH (qmax v w)) as (Hin & Hle & Hall).
    destruct (qmax_cases v w) as (Hc & Hv & Hw).
    split_and!.
    + apply elem_of_cons in Hin as [Hin|Hin]; [|by do 2 right].
      rewrite Hin. destruct Hc as [-> | ->]; [by left | by right; left].
    + by eapply Qle_trans.
    + constructor; [by eapply Qle_trans | done].
Qed.

Lemma Qmax_list_spec l :
  l ≠ [] → Qmax_list l ∈ l ∧ Forall (λ w, (w <= Qmax_list l)%Q) l.
Proof.
  destruct l as [|v l]; [done|]. intros _. simpl.
  destruct (foldl_qmax_spec l v) as (Hin & Hle & Hall). split; [done | by constructor].
Qed.

Lemma slice_incl_lookup {A} (a b k : nat) (l : list A) :
  slice_incl a b l !! k = if decide (k < b - a + 1)%nat then l !! (a + k)%nat else None.
Proof.
  unfold slice_incl. destruct (decide (k < b - a + 1)%nat).
  - by rewrite lookup_take_lt, lookup_drop.
  - by rewrite lookup_take_ge by lia.
Qed.

(** C2, on the modelled detector: for every event of [detect D t x], with
    [t] daily and contiguous, the start day is at most the end day, the end
    day is at most the last day of the series, and the peak intensity is
    the largest deviation of a value from the seasonal climatology over
    the days from start to end: it is attained on one of those days and no
    day among them deviates more. *)
Theorem event_invariant
    (D : DetectorModel) (t : list Z) (x : list Q) (k : nat) (s e : Z) (m : Q) :
  aligned D →
  contiguous t →
  time_start (detect D t x).1 !! k = Some s →
  time_end (detect D t x).1 !! k = Some e →
  intensity_max (detect D t x).1 !! k = Some m →
  s ≤ e
  ∧ (∃ tl, last t = Some tl ∧ e ≤ tl)
  ∧ (∃ (i : nat) d v c,
       t !! i = Some d ∧ s ≤ d ≤ e ∧ x !! i = Some v
       ∧ seas (detect D t x).2 !! i = Some c ∧ m = (v - c)%Q)
  ∧ (∀ (i : nat) d v c,
       t !! i = Some d → s ≤ d ≤ e → x !! i = Some v →
       seas (detect D t x).2 !! i = Some c → (v - c <= m)%Q).
Proof.
  intros Hal Hc Hs He Hm. unfold detect in *.
  cbn [fst snd time_start time_end intensity_max seas] in *.
  rewrite list_lookup_fmap in Hs. rewrite list_lookup_fmap in He.
  rewrite list_lookup_fmap in Hm.
  destruct (detect_events D t x !! k) as [[a b]|] eqn:Hk; [|done].
  simpl in Hs, He, Hm. injection Hs as <-. injection He as <-. injection Hm as <-.
  apply list_elem_of_lookup_2 in Hk.
  destruct (detect_events_bounds D t x a b Hal Hk) as (Hab & Hbt & Hbd).
  destruct (lookup_lt_is_Some_2 t a) as [s Hta]; [lia|].
  destruct (lookup_lt_is_Some_2 t b) as [e Htb]; [lia|].
  rewrite (list_lookup_total_correct _ _ _ Hta), (list_lookup_total_correct _ _ _ Htb).
  assert (e = s + Z.of_nat (b - a)) as He.
  { apply (contiguous_offset t a (b - a)); [done..|].
    by replace (a + (b - a))%nat with b by lia. }
  set (dev := deviations D t x) in *.
  assert (slice_incl a b dev ≠ []) as Hne.
  { intros Hnil. destruct (lookup_lt_is_Some_2 dev a) as [w Hw]; [lia|].
    pose proof (slice_incl_lookup a b 0 dev) as Hl.
    rewrite Hnil, decide_True, Nat.add_0_r, Hw in Hl by lia. done. }
  destruct (Qmax_list_spec _ Hne) as [Hin Hall].
  split_and!.
  - lia.
  - destruct (lookup_lt_is_Some_2 t (Nat.pred (length t))) as [tl Htl]; [lia|].
    exists tl. split; [by rewrite last_lookup|].
    pose proof (contiguous_offset t b (Nat.pred (length t) - b) e tl Hc Htb) as Hoff.
    rewrite Hoff; [lia|]. by replace (b + (Nat.pred (length t) - b))%nat
      with (Nat.pred (length t)) by lia.
  - apply list_elem_of_lookup_1 in Hin as [j Hj].
    rewrite slice_incl_lookup in Hj. destruct (decide _) as [Hjlt|]; [|done].
    subst dev. unfold deviations in Hj.
    apply lookup_zip_with_Some in Hj as (v & c & Hmax & Hv & Hcl).
    destruct (lookup_lt_is_Some_2 t (a + j)) as [d Hd]; [lia|].
    exists (a + j)%nat, d, v, c. split_and!; try done.
    + rewrite (contiguous_offset t a j s d Hc Hta Hd). lia.
    + rewrite (contiguous_offset t a j s d Hc Hta Hd). lia.
  - intros i d v c Hd Hrange Hv Hcl.
    assert (a ≤ i ≤ b)%nat as Hi.
    { destruct (Nat.le_gt_cases a i) as [Hai|Hia].
      - split; [done|]. destruct (Nat.le_gt_cases i b) as [|Hbi]; [done|].
        pose proof (contiguous_offset t b (i - b) e d Hc Htb) as Hoff.
        rewrite Hoff in Hrange; [lia|]. by replace (b + (i - b))%nat with i by lia.
      - pose proof (contiguous_offset t i (a - i) d s Hc Hd) as Hoff.
        rewrite Hoff in Hrange; [lia|]. by replace (i + (a - i))%nat with a by lia. }
    rewrite Forall_lookup in Hall. apply (Hall (i - a)%nat).
    rewrite slice_incl_lookup, decide_True by lia.
    replace (a + (i - a))%nat with i by lia.
    subst dev. unfold deviations. apply lookup_zip_with_Some. by exists v, c.
Qed.

Lemma example_detector_aligned : aligned example_detector.
Proof. split; intros s; simpl; by rewrite length_replicate. Qed.

Lemma spike_t_contiguous : contiguous spike_t.
Proof. unfold spike_t. rewrite arange_step1. apply seqZ_contiguous. Qed.

Lemma event_invariant_witness :
  734139 ≤ 734140
  ∧ (∃ tl, last spike_t = Some tl ∧ 734140 ≤ tl)
  ∧ (∃ (i : nat) d v c,
       spike_t !! i = Some d ∧ 734139 ≤ d ≤ 734140 ∧ spike_x !! i = Some v
       ∧ seas (detect example_detector spike_t spike_x).2 !! i = Some c
       ∧ (40 # 10)%Q = (v - c)%Q)
  ∧ (∀ (i : nat) d v c,
       spike_t !! i = Some d → 734139 ≤ d ≤ 734140 → spike_x !! i = Some v →
       seas (detect example_detector spike_t spike_x).2 !! i = Some c →
       (v - c <= 40 # 10)%Q).
Proof.
  apply (event_invariant example_detector spike_t spike_x 0%nat 734139 734140 (40 # 10)%Q).
  - apply example_detector_aligned.
  - apply spike_t_contiguous.
  - vm_compute. reflexivity.
  - vm_compute. reflexivity.
  - vm_compute. reflexivity.
Defined.

Lemma runs_from_no_flag flags i :
  Forall (λ f, f = false) flags → runs_from i None flags = [].
Proof.
  revert i. induction flags as [|f flags IH]; intros i Hall; [done|].
  inversion Hall as [|?? -> Hrest]; subst. simpl. by apply IH.
Qed.

Lemma flat_series_no_flag D t x :
  (∀ s, Forall (λ p : Z * Q, (snd p == 0)%Q) s →
        Forall (λ v, (0 <= v)%Q) (extreme_value D s)) →
  flat_at_seasonal_mean D t x →
  Forall (λ f, f = false) (detect_flags D t x).
Proof.
  intros Hzero Hflat. unfold flat_at_seasonal_mean in Hflat.
  assert (Forall (λ p : Z * Q, (snd p == 0)%Q) (zip t (deviations D t x))) as Hdev.
  { apply Forall_lookup. intros i [d w] Hi. simpl.
    apply lookup_zip_with_Some in Hi as (d' & w' & [= <- <-] & _ & Hw).
    unfold deviations in Hw.
    apply lookup_zip_with_Some in Hw as (v & c & -> & Hv & Hcl).
    pose proof (Forall2_lookup_lr _ _ _ _ _ _ Hflat Hv Hcl) as Heq. lra. }
  specialize (Hzero _ Hdev).
  apply Forall_lookup. intros i f Hi. unfold detect_flags in Hi.
  apply lookup_zip_with_Some in Hi as (v & th & -> & Hv & Hth).
  unfold detect_thresh in Hth.
  apply lookup_zip_with_Some in Hth as (c & ex & -> & Hcl & Hex).
  pose proof (Forall2_lookup_lr _ _ _ _ _ _ Hflat Hv Hcl) as Heq.
  rewrite Forall_lookup in Hzero. specialize (Hzero _ _ Hex). simpl in Hzero.
  unfold exceeds. apply negb_false_iff, Qle_bool_iff. lra.
Qed.

Lemma percentile_of_zeros rank sample :
  Forall (λ v, (v == 0)%Q) sample → (percentile rank sample == 0)%Q.
Proof.
  intros Hall. unfold percentile.
  destruct (merge_sort _ sample !! _) as [v|] eqn:Hv; simpl; [|reflexivity].
  apply list_elem_of_lookup_2 in Hv. rewrite merge_sort_Permutation in Hv.
  rewrite Forall_forall in Hall. by apply Hall.
Qed.

Lemma Qmean_of_zeros l : Forall (λ v, (v == 0)%Q) l → (Qmean l == 0)%Q.
Proof.
  intros Hall.
  assert (Qsum l == 0)%Q as Hsum.
  { induction Hall as [|v l Hv _ IH]; [reflexivity|].
    change (Qsum (v :: l)) with (v + Qsum l)%Q. rewrite Hv, IH. reflexivity. }
  unfold Qmean. rewrite Hsum. unfold Qdiv. apply Qmult_0_l.
Qed.

(** A smoothed percentile of a series without deviations is zero. *)
Lemma smoothed_percentile_of_zeros P s :
  Forall (λ p : Z * Q, (snd p == 0)%Q) s →
  Forall (λ v, (v == 0)%Q) (smoothed_percentile P s).
Proof.
  intros Hall.
  assert (Forall (λ p : Z * Q, (snd p == 0)%Q) (day_percentiles P s)) as Hpct.
  { unfold day_percentiles. rewrite Forall_fmap. apply Forall_forall. intros p _. simpl.
    apply percentile_of_zeros. unfold day_sample. rewrite Forall_fmap.
    apply Forall_forall. intros q Hq. apply list_elem_of_filter in Hq as [_ Hq].
    rewrite Forall_forall in Hall. by apply Hall. }
  unfold smoothed_percentile. rewrite Forall_fmap. apply Forall_forall. intros p _. simpl.
  apply Qmean_of_zeros. rewrite Forall_fmap. apply Forall_forall. intros q Hq.
  apply list_elem_of_filter in Hq as [_ Hq].
  rewrite Forall_forall in Hpct. by apply Hpct.
Qed.

(** C5, on the modelled detector with a smoothed percentile for threshold:
    a series that equals the seasonal mean on every day yields no event,
    whatever the seasonal estimator, the percentile, the seasons and the
    smoothing windows are. *)
Theorem flat_series_no_events (P : PercentileModel) (t : list Z) (x : list Q) :
  flat_at_seasonal_mean (percentile_detector P) t x →
  detect_events (percentile_detector P) t x = []
  ∧ (detect (percentile_detector P) t x).1 = no_events.
Proof.
  intros Hflat.
  assert (detect_events (percentile_detector P) t x = []) as Hnone.
  { unfold detect_events. rewrite (runs_from_no_flag _ 0); [done|].
    apply flat_series_no_flag; [|done]. intros s Hs.
    eapply Forall_impl; [apply (smoothed_percentile_of_zeros P s Hs)|].
    intros v Hv. simpl in Hv. rewrite Hv. apply Qle_refl. }
  split; [done|]. unfold detect. by rewrite Hnone.
Qed.

Lemma flat_series_no_events_witness :
  detect_events (percentile_detector example_percentile_model)
    [734137; 734138; 734139] [20; 20; 20]%Q = []
  ∧ (detect (percentile_detector example_percentile_model)
       [734137; 734138; 734139] [20; 20; 20]%Q).1 = no_events.
Proof.
  apply (flat_series_no_events example_percentile_model
           [734137; 734138; 734139] [20; 20; 20]%Q).
  unfold flat_at_seasonal_mean. vm_compute. repeat constructor.
Defined.

(** On thirty days of which three are warm, the same percentile detector
    reports the two days above the 90th percentile. *)
Example percentile_detector_finds_spike :
  detect_events (percentile_detector example_percentile_model)
    (arange 734137 734167 1)
    (replicate 10 20 ++ [25; 26; 27] ++ replicate 17 20)%Q
  = [(11, 12)]%nat.
Proof. vm_compute. reflexivity. Qed.

(** ** Whole runs *)

Lemma StronglySorted_filter {A} (R : relation A) (P : A → Prop)
    `{∀ a, Decision (P a)} (l : list A) :
  StronglySorted R l → StronglySorted R (filter P l).
Proof.
  induction 1 as [|a l Hl IH Hall]; [constructor|].
  rewrite filter_cons. destruct (decide (P a)); [|done].
  constructor; [done|]. rewrite Forall_forall in Hall |- *.
  intros b Hb. apply list_elem_of_filter in Hb as [_ Hb]. by apply Hall.
Qed.

Lemma length_sel_axis {C A} (keep : C → bool) (coord : list C) (data : list A) :
  length coord = length data →
  length (sel_axis keep coord data) = length (filter (λ c, keep c = true) coord).
Proof.
  unfold sel_axis. rewrite length_fmap.
  revert data. induction coord as [|c coord IH]; intros [|v data] Hlen; try done.
  simpl zip. rewrite !filter_cons. simpl fst.
  injection Hlen as Hlen. specialize (IH data Hlen).
  destruct (decide (keep c = true)); simpl; by rewrite IH.
Qed.

Lemma Forall_sel_axis {C A} (P : A → Prop) (keep : C → bool) (coord : list C) (data : list A) :
  Forall P data → Forall P (sel_axis keep coord data).
Proof.
  intros Hall. unfold sel_axis. rewrite Forall_fmap. apply Forall_forall.
  intros [c v] Hin. apply list_elem_of_filter in Hin as [_ Hin].
  apply elem_of_zip_r in Hin. rewrite Forall_forall in Hall. by apply Hall.
Qed.

(** The restriction to a time window keeps a dataset well formed. *)
Lemma wf_sel_time lo hi ds : wf_dataset ds → wf_dataset (sel_time lo hi ds).
Proof.
  intros (Ht & Hlat & Hlon & [Hla Ha] & [Hls Hs]).
  unfold wf_dataset, cube_shape. simpl. split_and!; try done.
  - by apply StronglySorted_filter.
  - by apply length_sel_axis.
  - by apply Forall_sel_axis.
  - by apply length_sel_axis.
  - by apply Forall_sel_axis.
Qed.

(** The days of the events of the modelled detector lie between the first
    and the last day of [t]: the invariant the plotting lookups rely on. *)
Lemma detect_days_in_range D t x t0 tl :
  aligned D → contiguous t → head t = Some t0 → last t = Some tl →
  Forall (λ s, t0 ≤ s ≤ tl) (time_start (detect D t x).1)
  ∧ Forall (λ e, t0 ≤ e ≤ tl) (time_end (detect D t x).1).
Proof.
  intros Hal Hc Hhd Hl.
  assert (∀ i d, t !! i = Some d → t0 ≤ d ≤ tl) as Hin.
  { intros i d Hi. rewrite last_lookup in Hl.
    assert (t !! 0%nat = Some t0) as H0 by (by destruct t).
    pose proof (lookup_lt_Some _ _ _ Hi).
    pose proof (contiguous_offset t 0 i t0 d Hc H0 Hi) as Hd.
    assert (tl = d + Z.of_nat (Nat.pred (length t) - i)) as Htl.
    { apply (contiguous_offset t i); [done..|].
      by replace (i + (Nat.pred (length t) - i))%nat with (Nat.pred (length t)) by lia. }
    lia. }
  unfold detect. cbn [fst time_start time_end]. rewrite !Forall_fmap.
  split; apply Forall_forall; intros [a b] Hab; simpl;
    destruct (detect_events_bounds D t x a b Hal Hab) as (? & ? & _).
  - destruct (lookup_lt_is_Some_2 t a) as [s Hs]; [lia|].
    rewrite (list_lookup_total_correct _ _ _ Hs). by eapply Hin.
  - destruct (lookup_lt_is_Some_2 t b) as [e He]; [lia|].
    rewrite (list_lookup_total_correct _ _ _ He). by eapply Hin.
Qed.

Lemma wf_spike_ds : wf_dataset spike_ds.
Proof. repeat constructor. Qed.

(** A run in which everything returns: the only event is shaded by both
    passes of the neighbour loop and as the largest event. *)
Example spike_run :
  (notebook (env_serving spike_ds) []).2
  = inr {| fig_neighbours := [(2, 3); (2, 3)]%nat; fig_largest := (2, 3)%nat |}
  ∧ (notebook (env_serving spike_ds) []).1.*1 = script.
Proof. split; vm_compute; reflexivity. Qed.

(** Without any event [np.argmax] raises and the run ends there. *)
Example no_event_run :
  (notebook (env_serving demo_ds) []).2 = inl ValueError
  ∧ last (notebook (env_serving demo_ds) []).1 = Some (Argmax, Raised ValueError).
Proof. split; vm_compute; reflexivity. Qed.

(** * Further properties of the notebook's code *)

(** ** The ordinal days *)

(** X1: [t] is computed from the first and the last date alone. It raises
    [IndexError] exactly when there is no date; otherwise it is the run of
    integers from the first date's ordinal to the last date's, empty when
    the last date precedes the first, and the dates in between play no
    part. *)
Theorem t_of_end_dates (dates : list datetime) :
  (t_of dates = inl IndexError ↔ dates = [])
  ∧ (∀ d0 dl, head dates = Some d0 → last dates = Some dl →
       t_of dates = inr (seqZ (toordinal d0) (toordinal dl - toordinal d0 + 1))
       ∧ t_of dates = t_of [d0; dl]
       ∧ (toordinal dl < toordinal d0 → t_of dates = inr [])).
Proof.
  split.
  - unfold t_of. rewrite py_getitem_first, py_getitem_last.
    destruct dates as [|d dates]; [done|]. simpl head. cbn [err_bind].
    destruct (last (d :: dates)) eqn:Hl; [done|]. by apply last_None in Hl.
  - intros d0 dl Hhd Hl.
    assert (t_of dates = inr (seqZ (toordinal d0) (toordinal dl - toordinal d0 + 1))) as Ht.
    { unfold t_of. rewrite py_getitem_first, Hhd, py_getitem_last, Hl. simpl.
      rewrite arange_step1. do 2 f_equal. lia. }
    split_and!; [done | |].
    + rewrite Ht. unfold t_of. rewrite py_getitem_first, py_getitem_last. simpl.
      rewrite arange_step1. do 2 f_equal. lia.
    + intros Hlt. rewrite Ht. by rewrite seqZ_nil by lia.
Qed.

(** X2: when the dates are daily, [t[i]] is the ordinal of [dates[i]] at
    every position: [t] is the list of the dates' ordinals. *)
Theorem t_is_ordinals_of_daily_dates (dates : list datetime) (t : list Z) :
  daily dates → t_of dates = inr t → t = toordinal <$> dates.
Proof.
  intros Hd Ht.
  destruct dates as [|d0 dates]; [done|].
  destruct (last (d0 :: dates)) as [dl|] eqn:Hl; [|by apply last_None in Hl].
  pose proof (daily_last (d0 :: dates) d0 dl eq_refl Hl Hd) as Hord.
  rewrite (daily_ordinals (d0 :: dates) d0 eq_refl Hd).
  unfold t_of in Ht. rewrite py_getitem_first, py_getitem_last, Hl in Ht.
  simpl in Ht. injection Ht as <-. rewrite arange_step1. f_equal. lia.
Qed.

Lemma t_is_ordinals_of_daily_dates_witness :
  [734137; 734138; 734139] = toordinal <$> ds_time demo_ds.
Proof.
  apply (t_is_ordinals_of_daily_dates (ds_time demo_ds) [734137; 734138; 734139]).
  - simpl. split; [reflexivity | split; [reflexivity | exact I]].
  - reflexivity.
Defined.

(** ** [np.where(t == day)[0][0]] *)

(** X3: the lookup returns the first position of the day in [t] (the day
    is there and at no earlier position), and it raises [IndexError]
    exactly when the day does not occur in [t]. *)
Theorem where_first_is_first (t : list Z) (v : Z) :
  (where_first t v = inl IndexError ↔ v ∉ t)
  ∧ (∀ e, where_first t v = inl e → e = IndexError)
  ∧ (∀ i, where_first t v = inr i →
       t !! i = Some v ∧ ∀ j, (j < i)%nat → t !! j ≠ Some v).
Proof.
  induction t as [|d t (IHf & IHe & IHi)]; simpl.
  - split_and!; [|by intros e [= <-]|done].
    split; [intros _; apply not_elem_of_nil | done].
  - destruct (Z.eqb_spec d v) as [->|Hne].
    + split_and!; [|done|].
      * split; [done|]. intros Hnot. exfalso. apply Hnot. by left.
      * intros i [= <-]. split; [done|]. lia.
    + destruct (where_first t v) as [e|i] eqn:Hw; simpl.
      * pose proof (IHe e eq_refl) as ->. split_and!; [|by intros e [= <-]|done].
        split; [|done]. intros _. rewrite not_elem_of_cons. split; [done|].
        by apply IHf.
      * split_and!; [|done|].
        -- split; [done|]. intros Hnot. rewrite not_elem_of_cons in Hnot.
           destruct Hnot as [_ Hnot]. by apply IHf in Hnot.
        -- intros i' [= <-]. destruct (IHi i eq_refl) as [Hi Hbefore].
           split; [done|]. intros [|j] Hj; simpl; [congruence|].
           apply Hbefore. lia.
Qed.

(** ** [np.argmax] *)

Lemma argmax_from_first (l : list Q) :
  ∀ bi b i,
    (argmax_from bi b i l = bi ∧ Forall (λ v, (v <= b)%Q) l)
    ∨ (∃ k m, argmax_from bi b i l = (i + k)%nat ∧ l !! k = Some m ∧ (b < m)%Q
              ∧ Forall (λ v, (v <= m)%Q) l
              ∧ ∀ k' v, (k' < k)%nat → l !! k' = Some v → (v < m)%Q).
Proof.
  induction l as [|v l IH]; intros bi b i; simpl; [by left|].
  destruct (Qle_bool v b) eqn:Hvb.
  - apply Qle_bool_iff in Hvb.
    destruct (IH bi b (S i)) as [[Hr Hall]|(k & m & Hr & Hk & Hb & Hall & Hbefore)].
    + left. split; [done | by constructor].
    + right. exists (S k), m. split_and!; [lia | done | done | |].
      * constructor; [|done]. apply Qlt_le_weak. by eapply Qle_lt_trans.
      * intros [|k'] w Hlt Hw; simpl in Hw.
        -- injection Hw as <-. by eapply Qle_lt_trans.
        -- eapply Hbefore; [|done]. lia.
  - assert (b < v)%Q as Hbv.
    { apply Qnot_le_lt. intros Hle. apply Qle_bool_iff in Hle. congruence. }
    destruct (IH i v (S i)) as [[Hr Hall]|(k & m & Hr & Hk & Hb & Hall & Hbefore)].
    + right. exists 0%nat, v. split_and!; [lia | done | done | |].
      * constructor; [apply Qle_refl | done].
      * lia.
    + right. exists (S k), m. split_and!; [lia | done | by eapply Qlt_trans | |].
      * constructor; [by apply Qlt_le_weak | done].
      * intros [|k'] w Hlt Hw; simpl in Hw.
        -- by injection Hw as <-.
        -- eapply Hbefore; [|done]. lia.
Qed.

(** X4: [ev = np.argmax(mhws['intensity_max'])] is the earliest position of
    the greatest peak intensity: no event has a greater peak intensity than
    the event at position [ev], and every event before position [ev] has a
    strictly smaller one. *)
Theorem ev_is_first_largest (l : list Q) (ev : nat) :
  argmax l = inr ev →
  ∃ m, l !! ev = Some m
       ∧ (∀ j v, l !! j = Some v → (v <= m)%Q)
       ∧ (∀ j v, (j < ev)%nat → l !! j = Some v → (v < m)%Q).
Proof.
  destruct l as [|v l]; [done|]. simpl. intros [= <-].
  destruct (argmax_from_first l 0%nat v 1%nat)
    as [[-> Hall]|(k & m & -> & Hk & Hv & Hall & Hbefore)].
  - exists v. split_and!; [done | | lia].
    intros [|j] w Hw; simpl in Hw.
    + injection Hw as <-. apply Qle_refl.
    + rewrite Forall_lookup in Hall. by eapply Hall.
  - exists m. split_and!; [done | |].
    + intros [|j] w Hw; simpl in Hw.
      * injection Hw as <-. by apply Qlt_le_weak.
      * rewrite Forall_lookup in Hall. by eapply Hall.
    + intros [|j] w Hlt Hw; simpl in Hw.
      * by injection Hw as <-.
      * eapply Hbefore; [|done]. lia.
Qed.

Lemma ev_is_first_largest_witness :
  ∃ m, [1 # 2; 5 # 2; 2; 5 # 2]%Q !! 1%nat = Some m
       ∧ (∀ j v, [1 # 2; 5 # 2; 2; 5 # 2]%Q !! j = Some v → (v <= m)%Q)
       ∧ (∀ j v, (j < 1)%nat → [1 # 2; 5 # 2; 2; 5 # 2]%Q !! j = Some v → (v < m)%Q).
Proof. apply (ev_is_first_largest [1 # 2; 5 # 2; 2; 5 # 2]%Q 1). reflexivity. Defined.

(** ** The URL lists *)

(** X5: for any two years the adapter builds [end_year - start_year + 1]
    URLs of each kind, none at all exactly when [end_year] precedes
    [start_year], and the two lists always have the same length. *)
Theorem files_count (y0 y1 : Z) :
  length (files_mean_of y0 y1) = Z.to_nat (y1 - y0 + 1)
  ∧ length (files_anom_of y0 y1) = length (files_mean_of y0 y1)
  ∧ (files_mean_of y0 y1 = [] ↔ y1 < y0)
  ∧ (files_anom_of y0 y1 = [] ↔ y1 < y0).
Proof.
  assert (∀ base, length (url_of base <$> py_range y0 (y1 + 1)) = Z.to_nat (y1 - y0 + 1))
    as Hlen.
  { intros base. unfold py_range. rewrite length_fmap, length_seqZ. f_equal. lia. }
  assert (∀ base, url_of base <$> py_range y0 (y1 + 1) = [] ↔ y1 < y0) as Hnil.
  { intros base. specialize (Hlen base).
    destruct (url_of base <$> py_range y0 (y1 + 1)) as [|u l]; simpl in Hlen.
    - split; [lia | done].
    - split; [done | lia]. }
  unfold files_mean_of, files_anom_of. split_and!; [apply Hlen | | apply Hnil..].
  by rewrite !Hlen.
Qed.

Lemma url_kinds_differ y y' : url_of base_url_mean y ≠ url_of base_url_anom y'.
Proof. unfold url_of, base_url_mean, base_url_anom. cbn. discriminate. Qed.

(** X6: no URL is built twice across the two lists: a mean-data URL is
    never an anomaly-data URL, whatever the year ranges. *)
Theorem files_kinds_disjoint (y0 y1 y0' y1' : Z) :
  Forall (λ u, u ∉ files_anom_of y0' y1') (files_mean_of y0 y1).
Proof.
  apply Forall_forall. intros u Hm Ha.
  apply list_elem_of_fmap in Hm as (y & -> & _).
  apply list_elem_of_fmap in Ha as (y' & Heq & _).
  by apply url_kinds_differ in Heq.
Qed.

(** ** The threshold masks *)

(** X7: no day is shaded both red (El Nino, anomaly above [bnd1]) and blue
    (La Nina, anomaly below [bnd2]); both masks have one entry per day. *)
Theorem enso_masks_disjoint (sst_anom_nino34 : list Q) :
  length (el_nino_mask sst_anom_nino34) = length sst_anom_nino34
  ∧ length (la_nina_mask sst_anom_nino34) = length sst_anom_nino34
  ∧ ∀ i : nat,
      ¬ (el_nino_mask sst_anom_nino34 !! i = Some true
         ∧ la_nina_mask sst_anom_nino34 !! i = Some true).
Proof.
  unfold el_nino_mask, la_nina_mask, mask_gt, mask_lt.
  rewrite !length_fmap. split_and!; [done..|].
  intros i [Hred Hblue]. rewrite list_lookup_fmap in Hred. rewrite list_lookup_fmap in Hblue.
  destruct (sst_anom_nino34 !! i) as [v|]; [|done]. simpl in Hred, Hblue.
  injection Hred as Hred. injection Hblue as Hblue.
  apply negb_true_iff, Qle_bool_false in Hblue.
  apply negb_true_iff in Hred.
  assert (Qle_bool v bnd1 = true) as Hle; [|congruence].
  apply Qle_bool_iff. unfold bnd2, bnd1 in *. lra.
Qed.

(** X8: in the last plotting cell every day shaded red (anomaly above 2)
    is also shaded light (anomaly above 1). *)
Theorem strong_within_moderate (sst_anom_lc : list Q) :
  Forall2 (λ strong moderate, strong = true → moderate = true)
    (strong_mask sst_anom_lc) (moderate_mask sst_anom_lc).
Proof.
  unfold strong_mask, moderate_mask, mask_gt.
  apply Forall2_fmap, Forall_Forall2_diag, Forall_forall. intros v _ Hs.
  apply negb_true_iff in Hs. apply negb_true_iff.
  destruct (Qle_bool v 1) eqn:Hm; [|done].
  apply Qle_bool_iff in Hm.
  assert (Qle_bool v 2 = true) as Hle; [|congruence].
  apply Qle_bool_iff. lra.
Qed.

(** ** The y-limits of the first plot *)

Lemma qmin_cases a b :
  (qmin a b = a ∨ qmin a b = b) ∧ (qmin a b <= a)%Q ∧ (qmin a b <= b)%Q.
Proof.
  unfold qmin. destruct (Qle_bool a b) eqn:Hab.
  - apply Qle_bool_iff in Hab. split_and!; [by left | apply Qle_refl | done].
  - apply Qle_bool_false in Hab. split_and!; [by right | done | apply Qle_refl].
Qed.

Lemma foldl_qmin_spec l v :
  (foldl qmin v l <= v)%Q ∧ Forall (λ w, (foldl qmin v l <= w)%Q) l.
Proof.
  revert v. induction l as [|w l IH]; intros v; simpl.
  - split; [apply Qle_refl | constructor].
  - destruct (IH (qmin v w)) as (Hle & Hall).
    destruct (qmin_cases v w) as (_ & Hv & Hw).
    split; [by eapply Qle_trans|]. constructor; [by eapply Qle_trans | done].
Qed.

(** X9: the y-limits of the first plot cannot be computed for an empty
    series ([ValueError]); otherwise the lower limit is below the upper
    one and every value of the series lies strictly between them. *)
Theorem ax1_ylim_encloses (sst_anom_nino34 : list Q) :
  (ax1_ylim sst_anom_nino34 = inl ValueError ↔ sst_anom_nino34 = [])
  ∧ (∀ lo hi, ax1_ylim sst_anom_nino34 = inr (lo, hi) →
       (lo < hi)%Q ∧ Forall (λ v, (lo < v)%Q ∧ (v < hi)%Q) sst_anom_nino34).
Proof.
  destruct sst_anom_nino34 as [|v l]; [done|].
  split; [done|]. intros lo hi. unfold ax1_ylim. simpl. intros [= <- <-].
  destruct (foldl_qmin_spec l v) as [Hminv Hmin].
  destruct (foldl_qmax_spec l v) as (_ & Hmaxv & Hmax).
  split; [lra|]. constructor; [lra|].
  apply Forall_forall. intros w Hw. rewrite Forall_forall in Hmin, Hmax.
  specialize (Hmin w Hw). specialize (Hmax w Hw). simpl in Hmin. lra.
Qed.

(** ** The time window *)

(** X10: [ds.sel(time=slice('2010-12', '2011-05'))] keeps a time label of
    the dataset exactly when it falls in December 2010 or in January to May
    2011; the kept labels stay in the order they had, and the latitudes and
    longitudes are left as they were. *)
Theorem sel_time_keeps_december_to_may (ds : Dataset) :
  Forall (λ d, 1 ≤ dt_month d ≤ 12) (ds_time ds) →
  (∀ d, d ∈ ds_time (sel_time (2010, 12) (2011, 5) ds)
        ↔ d ∈ ds_time ds
          ∧ ((dt_year d = 2010 ∧ dt_month d = 12) ∨ (dt_year d = 2011 ∧ dt_month d ≤ 5)))
  ∧ ds_time (sel_time (2010, 12) (2011, 5) ds) `sublist_of` ds_time ds
  ∧ ds_lat (sel_time (2010, 12) (2011, 5) ds) = ds_lat ds
  ∧ ds_lon (sel_time (2010, 12) (2011, 5) ds) = ds_lon ds.
Proof.
  intros Hmonths. split_and!; [|apply sublist_filter|done..].
  intros d. split.
  - intros Hd. assert (d ∈ ds_time ds) as Hin
      by (simpl in Hd; by apply list_elem_of_filter in Hd as [_ ?]).
    rewrite Forall_forall in Hmonths. by apply sel_time_label; [apply Hmonths|].
  - intros [Hin Hw]. rewrite Forall_forall in Hmonths.
    by apply sel_time_label; [apply Hmonths|].
Qed.

Lemma sel_time_keeps_december_to_may_witness :
  (∀ d, d ∈ ds_time (sel_time (2010, 12) (2011, 5) window_ds)
        ↔ d ∈ ds_time window_ds
          ∧ ((dt_year d = 2010 ∧ dt_month d = 12) ∨ (dt_year d = 2011 ∧ dt_month d ≤ 5)))
  ∧ ds_time (sel_time (2010, 12) (2011, 5) window_ds) `sublist_of` ds_time window_ds
  ∧ ds_lat (sel_time (2010, 12) (2011, 5) window_ds) = ds_lat window_ds
  ∧ ds_lon (sel_time (2010, 12) (2011, 5) window_ds) = ds_lon window_ds.
Proof.
  apply (sel_time_keeps_december_to_may window_ds).
  repeat constructor; discriminate.
Defined.

Lemma filter_all {A} (P : A → Prop) `{∀ a, Decision (P a)} (l : list A) :
  Forall P l → filter P l = l.
Proof.
  induction 1 as [|a l Ha Hl IH]; [done|].
  by rewrite filter_cons, decide_True, IH.
Qed.

Lemma sel_axis_pairs {C A} (keep : C → bool) (coord : list C) (data : list A) (i : nat) c v :
  length coord = length data →
  filter (λ c, keep c = true) coord !! i = Some c →
  sel_axis keep coord data !! i = Some v →
  (c, v) ∈ zip coord data ∧ keep c = true.
Proof.
  intros Hlen Hc Hv. rewrite (filter_zip_fst keep coord data Hlen) in Hc.
  unfold sel_axis in Hv. rewrite list_lookup_fmap in Hc. rewrite list_lookup_fmap in Hv.
  destruct (filter _ (zip coord data) !! i) as [[c' v']|] eqn:Hp; [|done].
  simpl in Hc, Hv. injection Hc as ->. injection Hv as ->.
  apply list_elem_of_lookup_2, list_elem_of_filter in Hp. by destruct Hp.
Qed.

Lemma sel_axis_again {C A} (keep : C → bool) (coord : list C) (data : list A) :
  length coord = length data →
  sel_axis keep (filter (λ c, keep c = true) coord) (sel_axis keep coord data)
  = sel_axis keep coord data.
Proof.
  intros Hlen. rewrite (filter_zip_fst keep coord data Hlen).
  unfold sel_axis at 2 3. set (F := filter _ (zip coord data)).
  unfold sel_axis. rewrite zip_fst_snd. f_equal. apply filter_all.
  apply Forall_forall. intros p Hp. subst F. by apply list_elem_of_filter in Hp as [? _].
Qed.

(** X11: restricting a well-formed dataset to a time window gives a
    well-formed dataset again, and every time label that remains is in the
    window and is still paired, position by position, with the [anom] and
    [sst] grids it had before. *)
Theorem sel_time_keeps_alignment (lo hi : Z * Z) (ds : Dataset) :
  wf_dataset ds →
  wf_dataset (sel_time lo hi ds)
  ∧ ∀ (i : nat) d,
      ds_time (sel_time lo hi ds) !! i = Some d →
      in_months lo hi d = true
      ∧ (∃ g, ds_anom (sel_time lo hi ds) !! i = Some g
              ∧ (d, g) ∈ zip (ds_time ds) (ds_anom ds))
      ∧ (∃ g, ds_sst (sel_time lo hi ds) !! i = Some g
              ∧ (d, g) ∈ zip (ds_time ds) (ds_sst ds)).
Proof.
  intros Hwf. pose proof (wf_sel_time lo hi ds Hwf) as Hwf'.
  split; [done|]. intros i d Hd.
  destruct Hwf as (_ & _ & _ & [Hla _] & [Hls _]).
  destruct Hwf' as (_ & _ & _ & [Hla' _] & [Hls' _]).
  pose proof (lookup_lt_Some _ _ _ Hd) as Hi.
  destruct (lookup_lt_is_Some_2 (ds_anom (sel_time lo hi ds)) i) as [ga Hga]; [lia|].
  destruct (lookup_lt_is_Some_2 (ds_sst (sel_time lo hi ds)) i) as [gs Hgs]; [lia|].
  simpl in Hd, Hga, Hgs.
  destruct (sel_axis_pairs _ _ _ _ _ _ (eq_sym Hla) Hd Hga) as [Hpa Hin].
  destruct (sel_axis_pairs _ _ _ _ _ _ (eq_sym Hls) Hd Hgs) as [Hps _].
  split_and!; [done | by exists ga | by exists gs].
Qed.

Lemma sel_time_keeps_alignment_witness :
  wf_dataset (sel_time (2010, 12) (2011, 5) demo_ds)
  ∧ ∀ (i : nat) d,
      ds_time (sel_time (2010, 12) (2011, 5) demo_ds) !! i = Some d →
      in_months (2010, 12) (2011, 5) d = true
      ∧ (∃ g, ds_anom (sel_time (2010, 12) (2011, 5) demo_ds) !! i = Some g
              ∧ (d, g) ∈ zip (ds_time demo_ds) (ds_anom demo_ds))
      ∧ (∃ g, ds_sst (sel_time (2010, 12) (2011, 5) demo_ds) !! i = Some g
              ∧ (d, g) ∈ zip (ds_time demo_ds) (ds_sst demo_ds)).
Proof. apply (sel_time_keeps_alignment (2010, 12) (2011, 5) demo_ds). apply wf_demo_ds. Defined.

(** X12: restricting a well-formed dataset to the same window a second
    time (running the cell again) changes nothing. *)
Theorem sel_time_idempotent (lo hi : Z * Z) (ds : Dataset) :
  wf_dataset ds →
  sel_time lo hi (sel_time lo hi ds) = sel_time lo hi ds.
Proof.
  intros (_ & _ & _ & [Hla _] & [Hls _]). unfold sel_time. simpl. f_equal.
  - apply filter_all, Forall_forall. intros d Hd. by apply list_elem_of_filter in Hd as [? _].
  - by apply sel_axis_again.
  - by apply sel_axis_again.
Qed.

Lemma sel_time_idempotent_witness :
  sel_time (2011, 1) (2011, 5) (sel_time (2011, 1) (2011, 5) demo_ds)
  = sel_time (2011, 1) (2011, 5) demo_ds.
Proof. apply (sel_time_idempotent (2011, 1) (2011, 5) demo_ds). apply wf_demo_ds. Defined.

Example sel_time_drops_december :
  ds_time (sel_time (2011, 1) (2011, 5) demo_ds)
  = [mk_datetime 2011 1 1 0; mk_datetime 2011 1 2 0]
  ∧ ds_sst (sel_time (2011, 1) (2011, 5) demo_ds)
    = all_sea [[[23; 24]; [23; 24]]; [[24; 25]; [24; 25]]]%Q.
Proof. split; reflexivity. Qed.

(** ** The box selection *)

(** X13: the box selection keeps the array aligned with its coordinates:
    the kept latitudes and longitudes all lie in their slices, stay
    increasing, and every time step's grid has one row per kept latitude
    and one column per kept longitude. *)
Theorem sel_box_keeps_shape (lat_lo lat_hi lon_lo lon_hi : Q) (da : DataArray) :
  StronglySorted Qlt (da_lat da) →
  StronglySorted Qlt (da_lon da) →
  cube_shape (length (da_time da)) (length (da_lat da)) (length (da_lon da)) (da_values da) →
  let boxed := sel_box lat_lo lat_hi lon_lo lon_hi da in
  Forall (λ c, (lat_lo <= c)%Q ∧ (c <= lat_hi)%Q) (da_lat boxed)
  ∧ Forall (λ c, (lon_lo <= c)%Q ∧ (c <= lon_hi)%Q) (da_lon boxed)
  ∧ StronglySorted Qlt (da_lat boxed)
  ∧ StronglySorted Qlt (da_lon boxed)
  ∧ cube_shape (length (da_time boxed)) (length (da_lat boxed)) (length (da_lon boxed))
      (da_values boxed).
Proof.
  intros Hlat Hlon [Hlen Hgrids]. simpl.
  assert (∀ lo hi l, Forall (λ c, (lo <= c)%Q ∧ (c <= hi)%Q)
                       (filter (λ c, in_slice lo hi c = true) l)) as Hin.
  { intros lo hi l. apply Forall_forall. intros c Hc.
    apply list_elem_of_filter in Hc as [Hc _]. unfold in_slice in Hc.
    apply andb_true_iff in Hc as [? ?]. by rewrite <- !Qle_bool_iff. }
  split_and!; [apply Hin | apply Hin | by apply StronglySorted_filter..|].
  split; [by rewrite length_fmap|].
  rewrite Forall_fmap. eapply Forall_impl; [exact Hgrids|].
  intros grid [Hrows Hcols]. simpl. split.
  - rewrite length_fmap. by apply length_sel_axis.
  - rewrite Forall_fmap. apply Forall_sel_axis.
    eapply Forall_impl; [exact Hcols|]. intros row Hrow. simpl.
    by apply length_sel_axis.
Qed.

Lemma sel_box_keeps_shape_witness :
  let boxed := sel_box (-32) (-26) 112 115 (sst demo_ds) in
  Forall (λ c, (-32 <= c)%Q ∧ (c <= -26)%Q) (da_lat boxed)
  ∧ Forall (λ c, (112 <= c)%Q ∧ (c <= 115)%Q) (da_lon boxed)
  ∧ StronglySorted Qlt (da_lat boxed)
  ∧ StronglySorted Qlt (da_lon boxed)
  ∧ cube_shape (length (da_time boxed)) (length (da_lat boxed)) (length (da_lon boxed))
      (da_values boxed).
Proof.
  apply (sel_box_keeps_shape (-32) (-26) 112 115 (sst demo_ds)).
  - repeat constructor.
  - repeat constructor.
  - repeat constructor.
Defined.

(** ** The shaded days *)

Lemma py_slice_seqZ (a n : Z) (i j : nat) :
  (i ≤ j)%nat → Z.of_nat j ≤ n →
  py_slice (seqZ a n) i j = seqZ (a + Z.of_nat i) (Z.of_nat j - Z.of_nat i).
Proof.
  intros Hij Hjn. apply list_eq. intros k. unfold py_slice. rewrite lookup_drop.
  destruct (decide (i + k < j)%nat).
  - rewrite lookup_take_lt by lia. rewrite !lookup_seqZ_lt by lia. f_equal. lia.
  - rewrite lookup_take_ge by lia. by rewrite lookup_seqZ_ge by lia.
Qed.

Lemma where_first_seqZ (a n s : Z) (i : nat) :
  where_first (seqZ a n) s = inr i → s = a + Z.of_nat i ∧ Z.of_nat i < n.
Proof.
  intros Hw.
  destruct (where_first_elem (seqZ a n) s) as (i' & Hw' & Hi').
  - destruct (decide (s ∈ seqZ a n)) as [|Hnot]; [done|].
    assert (∀ t, s ∉ t → where_first t s = inl IndexError) as Habsent.
    { clear. induction t as [|d t IH]; [done|]. intros Hnot.
      rewrite not_elem_of_cons in Hnot. destruct Hnot as [Hne Hnot]. simpl.
      destruct (Z.eqb_spec d s); [congruence|]. by rewrite IH. }
    rewrite (Habsent _ Hnot) in Hw. done.
  - rewrite Hw in Hw'. injection Hw' as <-. by apply lookup_seqZ in Hi'.
Qed.

(** X14: when the dates are daily, the days shaded for an event (the
    slice [dates[t1:t2 + 1]]) are exactly the days from the event's start
    to its end, one per day: [end - start + 1] of them. *)
Theorem shaded_dates_are_event_days
    (dates : list datetime) (d0 dl : datetime) (mhws : MHWs) (ev0 s e : Z) :
  daily dates →
  head dates = Some d0 →
  last dates = Some dl →
  py_getitem (time_start mhws) ev0 = inr s →
  py_getitem (time_end mhws) ev0 = inr e →
  toordinal d0 ≤ s → s ≤ e → e ≤ toordinal dl →
  ∃ t r, t_of dates = inr t
         ∧ shade_range t mhws ev0 = inr r
         ∧ toordinal <$> shaded_dates dates r = seqZ s (e - s + 1)
         ∧ length (shaded_dates dates r) = Z.to_nat (e - s + 1).
Proof.
  intros Hd Hhd Hl Hs He Hlo Hse Hhi.
  pose proof (daily_last _ _ _ Hhd Hl Hd) as Hord.
  pose proof (daily_ordinals _ _ Hhd Hd) as Hords.
  destruct (where_first_arange (toordinal d0) (toordinal dl) s) as (t1 & Ht1 & _); [lia|].
  destruct (where_first_arange (toordinal d0) (toordinal dl) e) as (t2 & Ht2 & _); [lia|].
  exists (arange (toordinal d0) (toordinal dl + 1) 1), (t1, t2).
  assert (toordinal <$> shaded_dates dates (t1, t2) = seqZ s (e - s + 1)) as Hdays.
  { rewrite arange_step1 in Ht1, Ht2.
    apply where_first_seqZ in Ht1 as [-> ?]. apply where_first_seqZ in Ht2 as [-> ?].
    unfold shaded_dates, py_slice. simpl fst. simpl snd.
    rewrite fmap_drop, fmap_take, Hords.
    fold (py_slice (seqZ (toordinal d0) (Z.of_nat (length dates))) t1 (t2 + 1)).
    rewrite py_slice_seqZ by lia. f_equal. lia. }
  split_and!.
  - unfold t_of. by rewrite py_getitem_first, Hhd, py_getitem_last, Hl.
  - unfold shade_range. rewrite Hs, He. simpl. rewrite Ht1. simpl. by rewrite Ht2.
  - done.
  - apply (f_equal length) in Hdays. by rewrite length_fmap, length_seqZ in Hdays.
Qed.

Lemma shaded_dates_are_event_days_witness :
  ∃ t r, t_of (ds_time spike_ds) = inr t
         ∧ shade_range t (detect example_detector spike_t spike_x).1 0 = inr r
         ∧ toordinal <$> shaded_dates (ds_time spike_ds) r = seqZ 734139 (734140 - 734139 + 1)
         ∧ length (shaded_dates (ds_time spike_ds) r) = Z.to_nat (734140 - 734139 + 1).
Proof.
  apply (shaded_dates_are_event_days (ds_time spike_ds)
           (mk_datetime 2010 12 31 0) (mk_datetime 2011 1 9 0)
           (detect example_detector spike_t spike_x).1 0 734139 734140).
  - simpl. repeat split.
  - reflexivity.
  - reflexivity.
  - vm_compute. reflexivity.
  - vm_compute. reflexivity.
  - vm_compute. discriminate.
  - lia.
  - vm_compute. discriminate.
Defined.

(** With a day missing the slice is taken at the positions of [t], not of
    [dates], and shades other days than the event's. *)
Example gappy_dates_shade_wrong_days :
  shade_range [734138; 734139; 734140] (mk_MHWs [734140] [734140] [1] [1]%Q [1]%Q [1]%Q) 0
  = inr (2, 2)%nat
  ∧ shaded_dates (ds_time gappy_ds) (2, 2)%nat = [].
Proof. split; reflexivity. Qed.

(** ** The box mean *)

Lemma Qsum_between (lo hi : Q) (l : list Q) :
  Forall (λ v, (lo <= v)%Q ∧ (v <= hi)%Q) l →
  (inject_Z (Z.of_nat (length l)) * lo <= Qsum l)%Q
  ∧ (Qsum l <= inject_Z (Z.of_nat (length l)) * hi)%Q.
Proof.
  induction 1 as [|v l [Hlo Hhi] Hl [IHlo IHhi]]; simpl.
  - change (inject_Z (Z.of_nat 0)) with 0%Q. split; lra.
  - rewrite Nat2Z.inj_succ, <- Z.add_1_r, inject_Z_plus.
    change (inject_Z 1) with 1%Q. split; lra.
Qed.

Lemma Qmean_between (lo hi : Q) (l : list Q) :
  l ≠ [] →
  Forall (λ v, (lo <= v)%Q ∧ (v <= hi)%Q) l →
  (lo <= Qsum l / inject_Z (Z.of_nat (length l)))%Q
  ∧ (Qsum l / inject_Z (Z.of_nat (length l)) <= hi)%Q.
Proof.
  intros Hne Hall. destruct (Qsum_between lo hi l Hall) as [Hlo Hhi].
  assert (0 < inject_Z (Z.of_nat (length l)))%Q as Hpos.
  { change 0%Q with (inject_Z 0). rewrite <- Zlt_Qlt. destruct l; [done | simpl; lia]. }
  split.
  - apply Qle_shift_div_l; [done|]. lra.
  - apply Qle_shift_div_r; [done|]. lra.
Qed.

(** X15: at every time step the box average lies between the smallest and
    the largest value of the cells of the box that are not NaN, as long as
    there is one: bounds on the cells are bounds on the series, and the
    value is then not NaN. *)
Theorem box_mean_between
    (lat_lo lat_hi lon_lo lon_hi lo hi : Q) (da : DataArray) (i : nat)
    (grid : list (list (option Q))) :
  da_values da !! i = Some grid →
  omap id (box_cells lat_lo lat_hi lon_lo lon_hi (da_lat da) (da_lon da) grid) ≠ [] →
  Forall (λ v, (lo <= v)%Q ∧ (v <= hi)%Q)
    (omap id (box_cells lat_lo lat_hi lon_lo lon_hi (da_lat da) (da_lon da) grid)) →
  ∃ v, s_values (mean_lon_lat (sel_box lat_lo lat_hi lon_lo lon_hi da)) !! i = Some (Some v)
       ∧ (lo <= v)%Q ∧ (v <= hi)%Q.
Proof.
  intros Hg Hne Hall. rewrite (reduced_lookup _ _ _ _ _ _ _ Hg).
  unfold nanmean, valid_cells.
  destruct (omap id (box_cells _ _ _ _ _ _ _)) as [|w rest] eqn:Hcells; [done|].
  eexists. split; [done|]. by apply Qmean_between.
Qed.

Lemma box_mean_between_witness :
  ∃ v, s_values (mean_lon_lat (sel_box (-5) 5 190 240 (anom pacific_ds))) !! 1%nat
       = Some (Some v)
       ∧ (1 <= v)%Q ∧ (v <= 3)%Q.
Proof.
  apply (box_mean_between (-5) 5 190 240 1 3 (anom pacific_ds) 1
           [[Some 3; Some 9; Some 9]; [Some 9; Some 1; None]; [Some 9; Some 2; Some 3]]%Q).
  - reflexivity.
  - vm_compute. discriminate.
  - vm_compute. repeat constructor; discriminate.
Defined.

(** ** Runs without events, and what a finished run has shaded *)

Lemma triple_bind {A B} (Pre : Log → Prop) (m : M A) (Mid : A → Log → Prop)
    (f : A → M B) (Post : Log → Err B → Prop) :
  triple Pre m (λ log r, match r with inl e => Post log (inl e) | inr a => Mid a log end) →
  (∀ a, triple (Mid a) (f a) Post) →
  triple Pre (m_bind m f) Post.
Proof.
  intros Hm Hf log Hpre. specialize (Hm log Hpre). unfold m_bind.
  destruct (m log) as [log' [e|a]]; simpl in *; [done|]. by apply Hf.
Qed.

Lemma triple_step {A} (Pre : Log → Prop) (st : Stage) (r : Err A)
    (Post : Log → Err A → Prop) :
  (∀ log, Pre log → Post (log ++ [(st, outcome_of r)]) r) →
  triple Pre (step st r) Post.
Proof. intros H log Hpre. by apply H. Qed.

Lemma returns_bind {A B} (m : M A) (V : A → Prop) (f : A → M B) (W : B → Prop) :
  returns m V → (∀ a, V a → returns (f a) W) → returns (m_bind m f) W.
Proof.
  intros Hm Hf log b. unfold m_bind. specialize (Hm log).
  destruct (m log) as [log' [e|a]]; simpl in *; [done|].
  intros Hb. by apply (Hf a (Hm a eq_refl) log').
Qed.

Lemma returns_any {A} (m : M A) : returns m (λ _, True).
Proof. done. Qed.

Lemma returns_step {A} (st : Stage) (r : Err A) : returns (step st r) (λ a, r = inr a).
Proof. by intros log a. Qed.

Lemma returns_ret {A} (a : A) : returns (m_ret a) (λ b, b = a).
Proof. intros log b. simpl. by intros [= <-]. Qed.

Lemma returns_shade env t mhws w ev0 :
  returns (shade env t mhws w ev0) (λ r, shade_range t mhws ev0 = inr r).
Proof.
  unfold shade.
  eapply returns_bind; [apply returns_step | intros r Hr].
  eapply returns_bind; [apply returns_any | intros [] _].
  intros log b Hb. apply returns_ret in Hb. by subst.
Qed.

Lemma returns_neighbour_loop env t mhws ev :
  returns (m_for 0 (neighbour_indices ev) (λ k ev0, shade env t mhws (Neighbour k) ev0))
    (λ near, ∃ r0 r1, near = [r0; r1]
                      ∧ shade_range t mhws (ev - 1) = inr r0
                      ∧ shade_range t mhws ev = inr r1).
Proof.
  rewrite neighbour_indices_pair. simpl.
  eapply returns_bind; [apply returns_shade | intros r0 Hr0].
  eapply returns_bind; [|intros rs Hrs; intros log b Hb; apply returns_ret in Hb;
                          subst b; exact Hrs].
  eapply returns_bind; [apply returns_shade | intros r1 Hr1].
  eapply returns_bind; [apply returns_ret | intros rs ->].
  intros log b Hb. apply returns_ret in Hb. subst b. by exists r0, r1.
Qed.

Ltac skip_stage :=
  eapply returns_bind; [apply returns_any | let H := fresh in intros ? H; clear H].

(** X16: in every run that ends with a figure, the neighbour loop has
    shaded two ranges and the second one is the range of the largest
    event itself, which [fill_between] then shades again in red. *)
Theorem largest_event_shaded_twice (env : Environment) (fig : Figure) :
  (notebook env []).2 = inr fig →
  ∃ r0, fig_neighbours fig = [r0; fig_largest fig].
Proof.
  revert fig. generalize (@nil (Stage * Outcome)).
  change (returns (notebook env) (λ fig, ∃ r0, fig_neighbours fig = [r0; fig_largest fig])).
  unfold notebook. do 2 skip_stage. unfold analysis. do 8 skip_stage.
  match goal with out : (MHWs * Clim)%type |- _ => destruct out as [mhws clim] end.
  do 18 skip_stage.
  eapply returns_bind; [apply returns_neighbour_loop | intros near (r0 & r1 & -> & _ & Hr1)].
  eapply returns_bind; [apply returns_shade | intros main Hmain].
  do 4 skip_stage.
  intros log b Hb. apply returns_ret in Hb. subst b. simpl.
  exists r0. rewrite Hr1 in Hmain. by injection Hmain as ->.
Qed.

Lemma largest_event_shaded_twice_witness :
  ∃ r0, [(2, 3); (2, 3)]%nat = [r0; (2, 3)%nat].
Proof.
  apply (largest_event_shaded_twice (env_serving spike_ds)
           {| fig_neighbours := [(2, 3); (2, 3)]%nat; fig_largest := (2, 3)%nat |}).
  vm_compute. reflexivity.
Defined.

Lemma before_detect_snoc log st o :
  before_detect log → st ≠ Subplots → (st, o) ≠ (Detect, Returned) →
  before_detect (log ++ [(st, o)]).
Proof.
  intros [Hs Hd] Hst Hso. split.
  - rewrite fmap_app, elem_of_app. intros [?|Hin]; [done|].
    simpl in Hin. apply list_elem_of_singleton in Hin. congruence.
  - rewrite elem_of_app. intros [?|Hin]; [done|].
    apply list_elem_of_singleton in Hin. congruence.
Qed.

Ltac early_stage :=
  lazymatch goal with
  | |- triple _ (m_bind _ _) _ =>
      eapply (triple_bind _ _ (λ _ log, before_detect log)); [early_stage | intros ?]
  | |- triple _ (lib _ _ _) _ => unfold lib; early_stage
  | |- triple _ (step ?st ?r) _ =>
      apply triple_step; intros ? ?; destruct r; simpl;
      [ split_and!;
        [ by eexists
        | by apply before_detect_snoc
        | intros ?; exfalso;
          eapply (proj2 (before_detect_snoc _ st _ ltac:(eassumption)
                           ltac:(discriminate) ltac:(discriminate))); eassumption ]
      | by apply before_detect_snoc ]
  end.

(** X17: when the detector reports no event, the notebook never produces a
    figure and never starts plotting; if the detector call itself
    returned, the run ends right after it with the [ValueError] of
    [np.argmax] on an empty sequence. *)
Theorem no_event_no_plot (env : Environment) :
  (∀ t x out, detector env t x = inr out → intensity_max out.1 = []) →
  (∃ e, (notebook env []).2 = inl e)
  ∧ (Subplots ∉ (notebook env []).1.*1)
  ∧ ((Detect, Returned) ∈ (notebook env []).1 →
     (notebook env []).2 = inl ValueError
     ∧ last (notebook env []).1 = Some (Argmax, Raised ValueError)).
Proof.
  intros Hnone.
  set (Post := λ (log : Log) (r : Err Figure),
         (∃ e, r = inl e)
         ∧ (Subplots ∉ log.*1)
         ∧ ((Detect, Returned) ∈ log →
            r = inl ValueError ∧ last log = Some (Argmax, Raised ValueError))).
  assert (triple before_detect (notebook env) Post) as Hrun.
  { unfold notebook. do 2 early_stage. unfold analysis. simpl reduce.
    unfold reduce. do 7 early_stage.
    eapply (triple_bind _ _ (λ out log, (Subplots ∉ log.*1) ∧ intensity_max out.1 = [])).
    - apply triple_step. intros log Hlog.
      destruct (detector env _ _) as [e|out] eqn:Hdet; simpl.
      + split_and!; [by eexists | by apply before_detect_snoc |].
        intros Hin. exfalso.
        eapply (proj2 (before_detect_snoc _ Detect (Raised e) Hlog
                         ltac:(discriminate) ltac:(discriminate))). exact Hin.
      + split; [|by eapply Hnone].
        destruct Hlog as [Hs _]. rewrite fmap_app, elem_of_app. intros [?|Hin]; [done|].
        simpl in Hin. by apply list_elem_of_singleton in Hin.
    - intros [mhws clim] log [Hs Hempty]. simpl in Hempty.
      unfold m_bind at 1, step at 1. rewrite Hempty. simpl.
      split_and!; [by eexists | |].
      + rewrite fmap_app, elem_of_app. intros [?|Hin]; [done|].
        simpl in Hin. by apply list_elem_of_singleton in Hin.
      + intros _. split; [done|]. by rewrite last_snoc. }
  apply (Hrun []). split; apply not_elem_of_nil.
Qed.

Lemma no_event_no_plot_witness :
  (∃ e, (notebook env_quiet []).2 = inl e)
  ∧ (Subplots ∉ (notebook env_quiet []).1.*1)
  ∧ ((Detect, Returned) ∈ (notebook env_quiet []).1 →
     (notebook env_quiet []).2 = inl ValueError
     ∧ last (notebook env_quiet []).1 = Some (Argmax, Raised ValueError)).
Proof.
  apply (no_event_no_plot env_quiet).
  intros t x out. simpl. by intros [= <-].
Defined.

Example quiet_run_reaches_argmax : (Detect, Returned) ∈ (notebook env_quiet []).1.
Proof. vm_compute. repeat constructor. Qed.

(** ** Slicing in time and reducing in space *)

Lemma sel_axis_fmap {C A B} (keep : C → bool) (f : A → B) (coord : list C) (data : list A) :
  sel_axis keep coord (f <$> data) = f <$> sel_axis keep coord data.
Proof.
  unfold sel_axis. revert data.
  induction coord as [|c coord IH]; intros [|v data]; try done.
  rewrite fmap_cons. simpl zip. rewrite !filter_cons. simpl fst.
  destruct (decide (keep c = true)); [rewrite !fmap_cons; simpl; f_equal|]; apply IH.
Qed.

(** X18: restricting the dataset to a time window and then averaging a box
    gives the same series as averaging the box first and then keeping the
    time steps of the window; so the three series of the notebook do not
    depend on whether the window is applied before or after them. *)
Theorem time_slice_commutes_with_reduction (lo hi : Z * Z) (ds : Dataset) :
  s_values (sst_anom_nino34_of (sel_time lo hi ds))
  = sel_axis (in_months lo hi) (ds_time ds) (s_values (sst_anom_nino34_of ds))
  ∧ s_values (sst_lc_of (sel_time lo hi ds))
    = sel_axis (in_months lo hi) (ds_time ds) (s_values (sst_lc_of ds))
  ∧ s_values (sst_anom_lc_of (sel_time lo hi ds))
    = sel_axis (in_months lo hi) (ds_time ds) (s_values (sst_anom_lc_of ds)).
Proof.
  unfold sst_anom_nino34_of, sst_lc_of, sst_anom_lc_of, mean_lon_lat, sel_box. simpl.
  by rewrite !sel_axis_fmap.
Qed.

Example slice_then_reduce_demo :
  ∃ v0 v1, s_values (sst_lc_of (sel_time (2011, 1) (2011, 5) demo_ds)) = [Some v0; Some v1]
           ∧ (v0 == 47 # 2)%Q ∧ (v1 == 49 # 2)%Q.
Proof. eexists _, _. split; [vm_compute; reflexivity|]. split; reflexivity. Qed.
